(** * Unscrobbler: the deletion predicate, the paging loop and the command line

    A shallow embedding of [Unscrobbler.py].  The browser is an external
    collaborator: its calls are the methods of the class [WebDriver] over an
    abstract world, and the controller is a state-and-exception monad over
    that world.  Unbounded [while] loops take a fuel argument. *)

From stdpp Require Import base decidable numbers list strings gmap pretty.

Open Scope Z_scope.

(** ** Constants and data *)

Definition EXIT_SUCCESS : Z := 0.
Definition EXIT_ERROR : Z := 1.

(** The fields of a parsed [datetime] that the program reads. *)
Record datetime := mk_datetime { dt_year : Z; dt_hour : Z }.

(** [UnscrobblerConfig].  [log_file] is [true] when a log file is open for the
    run; the geckodriver log only feeds the browser and is left out. *)
Record UnscrobblerConfig := mk_config {
  lastfm_username : string;
  lastfm_password : string;
  dry_run : bool;
  delete_artists : gset string;
  delete_titles : gset string;
  max_removals : Z;
  log_file : bool;
  year : option Z;
  first_hr : option Z;
  last_hr : option Z;
  start_page : option Z;
  max_page : option Z
}.

(** ** The predicate [should_delete] (lines 74-102) *)

Section Predicate.
Variable cfg : UnscrobblerConfig.

Definition use_hours : bool :=
  bool_decide (is_Some (first_hr cfg)) && bool_decide (is_Some (last_hr cfg)).
Definition use_year : bool := bool_decide (is_Some (year cfg)).

Definition should_delete (track_name artist_name : string)
    (parsed_timestamp : datetime) : bool :=
  let delete := false in
  let delete :=
    if bool_decide (artist_name ∈ delete_artists cfg) then true else delete in
  let delete :=
    if bool_decide (track_name ∈ delete_titles cfg) then true else delete in
  if delete then
    let hour := dt_hour parsed_timestamp in
    let delete :=
      match first_hr cfg, last_hr cfg with
      | Some start_hour, Some stop_hour =>
          if start_hour >? stop_hour then
            (hour >=? start_hour) || (hour <=? stop_hour)
          else if stop_hour >? start_hour then
            (start_hour <=? hour) && (hour <=? stop_hour)
          else hour =? start_hour
      | _, _ => delete
      end in
    let delete :=
      match year cfg with
      | Some year_to_use => dt_year parsed_timestamp =? year_to_use
      | None => delete
      end in
    delete
  else delete.
End Predicate.

(** ** The external collaborators *)

(** The exceptions the run can meet. *)
Inductive exn :=
| NoSuchElementException
| StaleElementReferenceException
| TimeoutException
| WebDriverException
| ParserError
| UnboundLocalError.

#[global] Instance exn_eq_dec : EqDecision exn.
Proof. solve_decision. Defined.

(** What a call of an external collaborator gives: a value, or an exception. *)
Inductive result (A : Type) :=
| Ok (a : A)
| Err (e : exn).
Arguments Ok {A} a.
Arguments Err {A} e.

(** A Selenium [WebElement] is an opaque reference into the live page. *)
Definition WebElement := nat.

(** The addresses the run navigates to: [login_page_url], the f-string
    [library_page_url] for a page number, and the [href] of a next button. *)
Inductive Url :=
| login_page_url
| library_page_url (library_page_num : Z)
| href_url (href : string).

(** What the run reads from one row (lines 116-125 and 184-193). *)
Record RowText := mk_row_text {
  track_name : string;
  artist_name : string;
  timestamp : WebElement;
  timestamp_string : string
}.

(** The browser and the date parser.  Every call may raise, and every browser
    call may change the world. *)
Class WebDriver (W : Type) := {
  (* lines 138-143: open the login page, fill in the form, wait for the button *)
  open_login : string -> string -> W -> result unit * W;
  (* line 148: click the submit button *)
  click_submit : W -> result unit * W;
  (* driver.get(url) *)
  get : Url -> W -> result unit * W;
  (* line 163: wait until the title contains Library *)
  wait_library : W -> result unit * W;
  (* find_elements "section.tracklist-section" *)
  find_sections : W -> result (list WebElement) * W;
  (* the table, its tbody and the tr elements of a section *)
  find_rows : WebElement -> W -> result (list WebElement) * W;
  (* the name, artist and timestamp of a row *)
  read_row : WebElement -> W -> result RowText * W;
  (* lines 198-204: find chartlist-more, scroll, move, click the timestamp *)
  focus_row : WebElement -> WebElement -> W -> result WebElement * W;
  (* lines 208-210: click chartlist-more-button *)
  click_more_button : WebElement -> W -> result unit * W;
  (* lines 211-213: click more-item--delete, the deletion itself *)
  click_delete_item : WebElement -> W -> result unit * W;
  (* lines 230-231: the element ".pagination-next > a" *)
  find_next_button : W -> result WebElement * W;
  (* line 239: get_attribute href *)
  get_href : WebElement -> W -> result string * W;
  (* dateutil.parser.parse *)
  dateutil_parse : string -> result datetime
}.

(** ** The state of a run *)

(** One object written by [_unscrobbler_log_deleted_item]. *)
Record LogEntry := mk_log_entry {
  log_track_title : string;
  log_artist_name : string;
  log_timestamp : string;
  log_timestamp_parsed : datetime
}.

(** The calls that reach the browser. *)
Inductive Call :=
| COpenLogin
| CSubmit
| CGet (u : Url)
| CWaitLibrary
| CFindSections
| CFindRows (section : WebElement)
| CReadRow (row : WebElement)
| CFocusRow (row : WebElement)
| CMoreButton (chartlist_more : WebElement)
| CDeleteItem (chartlist_more : WebElement)
| CFindNext
| CHref (next_button : WebElement).

(** A call as it happened: whether it returned, and the value of the counter
    [deletions] when it was issued. *)
Record Event := mk_event { ev_call : Call; ev_ok : bool; ev_deletions : Z }.

(** The mutable state: the browser's world, the counter, the log file and the
    record of the calls made so far (the last one is ghost state). *)
Record State (W : Type) := mk_state {
  world : W;
  deletions : Z;
  log_lines : list LogEntry;
  trace : list Event
}.
Arguments mk_state {W}.
Arguments world {W}.
Arguments deletions {W}.
Arguments log_lines {W}.
Arguments trace {W}.

(** How a computation ends: with a value, with an exception that propagates,
    or cut off because the fuel ran out. *)
Inductive Outcome (A : Type) :=
| Val (a : A)
| Raise (e : exn)
| OutOfFuel.
Arguments Val {A} a.
Arguments Raise {A} e.
Arguments OutOfFuel {A}.

Definition M (W A : Type) : Type := State W -> Outcome A * State W.

#[global] Instance M_ret {W} : MRet (M W) := fun A a st => (Val a, st).
#[global] Instance M_bind {W} : MBind (M W) := fun A B f m st =>
  match m st with
  | (Val a, st') => f a st'
  | (Raise e, st') => (Raise e, st')
  | (OutOfFuel, st') => (OutOfFuel, st')
  end.

Definition raise {W A} (e : exn) : M W A := fun st => (Raise e, st).
Definition out_of_fuel {W A} : M W A := fun st => (OutOfFuel, st).

(** [try: ... except Exception] around [m]: the exception becomes a value. *)
Definition try_ {W A} (m : M W A) : M W (result A) := fun st =>
  match m st with
  | (Val a, st') => (Val (Ok a), st')
  | (Raise e, st') => (Val (Err e), st')
  | (OutOfFuel, st') => (OutOfFuel, st')
  end.

Definition lift {W A} (r : result A) : M W A :=
  match r with Ok a => mret a | Err e => raise e end.

Definition is_ok {A} (r : result A) : bool :=
  match r with Ok _ => true | Err _ => false end.

(** One call of the browser, recorded in the trace. *)
Definition call {W A} (c : Call) (op : W -> result A * W) : M W A := fun st =>
  let '(r, w) := op (world st) in
  lift r (mk_state w (deletions st) (log_lines st)
            (trace st ++ [mk_event c (is_ok r) (deletions st)])).

Definition get_deletions {W} : M W Z := fun st => (Val (deletions st), st).

(** [deletions += 1] *)
Definition incr_deletions {W} : M W unit := fun st =>
  (Val tt, mk_state (world st) (deletions st + 1) (log_lines st) (trace st)).

(** Python's truth value of an [Optional[int]]. *)
Definition truthy (o : option Z) : bool :=
  match o with Some n => negb (n =? 0) | None => false end.

(** ** The controller [unscrobbler] (lines 58-243) *)

Section Controller.
Context {W : Type} `{!WebDriver W}.
Variable cfg : UnscrobblerConfig.

(** [_unscrobbler_log_deleted_item] (lines 52-55); the file stays open for
    the whole run. *)
Definition _unscrobbler_log_deleted_item (d : LogEntry) : M W unit := fun st =>
  if negb (log_file cfg) then (Val tt, st)
  else (Val tt, mk_state (world st) (deletions st) (log_lines st ++ [d]) (trace st)).

(** [to_delete_exists] (lines 105-133): the inner and the outer [for]. *)
Fixpoint exists_in_rows (rows : list WebElement) : M W bool :=
  match rows with
  | [] => mret false
  | row :: rows' =>
      txt ← call (CReadRow row) (read_row row);
      parsed_timestamp ← lift (dateutil_parse (timestamp_string txt));
      if should_delete cfg (track_name txt) (artist_name txt) parsed_timestamp
      then mret true
      else exists_in_rows rows'
  end.

Fixpoint exists_in_sections (sections : list WebElement) : M W bool :=
  match sections with
  | [] => mret false
  | section :: sections' =>
      rows ← call (CFindRows section) (find_rows section);
      found ← exists_in_rows rows;
      if (found : bool) then mret true else exists_in_sections sections'
  end.

Definition to_delete_exists : M W bool :=
  sections ← call CFindSections find_sections;
  exists_in_sections sections.

(** The login retry (lines 144-157): [true] after [break], [false] where the
    source returns [EXIT_ERROR]. *)
Fixpoint login_loop (fuel : nat) (submit_attempts : Z) : M W bool :=
  match fuel with
  | O => out_of_fuel
  | S fuel' =>
      let submit_attempts := submit_attempts + 1 in
      r ← try_ (call CSubmit click_submit);
      match r with
      | Ok _ => mret true
      | Err _ =>
          if submit_attempts >=? 12 then mret false
          else login_loop fuel' submit_attempts
      end
  end.

(** The deletion retry (lines 205-217): [while True] around a [try] that
    catches every exception and goes round again. *)
Fixpoint delete_retry (fuel : nat) (chartlist_more : WebElement) : M W unit :=
  match fuel with
  | O => out_of_fuel
  | S fuel' =>
      r ← try_ (if negb (dry_run cfg) then
                  call (CMoreButton chartlist_more) (click_more_button chartlist_more);;
                  call (CDeleteItem chartlist_more) (click_delete_item chartlist_more)
                else mret tt);
      match r with
      | Ok _ => mret tt
      | Err _ => delete_retry fuel' chartlist_more
      end
  end.

(** The body of the [if should_delete(...)] of lines 196-225: focus the row,
    delete it, log it, count it. *)
Definition delete_row (fuel : nat) (row : WebElement) (txt : RowText)
    (parsed_timestamp : datetime) : M W unit :=
  chartlist_more ← call (CFocusRow row) (focus_row row (timestamp txt));
  delete_retry fuel chartlist_more;;
  _unscrobbler_log_deleted_item
    (mk_log_entry (track_name txt) (artist_name txt)
       (timestamp_string txt) parsed_timestamp);;
  incr_deletions.

(** The [for row in ...] of lines 179-225. *)
Fixpoint for_rows (fuel : nat) (rows : list WebElement) : M W unit :=
  match rows with
  | [] => mret tt
  | row :: rows' =>
      d ← get_deletions;
      if d >=? max_removals cfg then mret tt
      else
        txt ← call (CReadRow row) (read_row row);
        parsed_timestamp ← lift (dateutil_parse (timestamp_string txt));
        if should_delete cfg (track_name txt) (artist_name txt) parsed_timestamp
        then
          delete_row fuel row txt parsed_timestamp;;
          for_rows fuel rows'
        else for_rows fuel rows'
  end.

(** The [for section in sections] of lines 171-225. *)
Fixpoint for_sections (fuel : nat) (sections : list WebElement) : M W unit :=
  match sections with
  | [] => mret tt
  | section :: sections' =>
      d ← get_deletions;
      if d >=? max_removals cfg then mret tt
      else
        rows ← call (CFindRows section) (find_rows section);
        for_rows fuel rows;;
        for_sections fuel sections'
  end.

(** The [while to_delete_exists(driver) and ...] of lines 165-227. *)
Fixpoint attempt_loop (fuel : nat) (library_page_url' : Url) : M W unit :=
  match fuel with
  | O => out_of_fuel
  | S fuel' =>
      found ← to_delete_exists;
      d ← get_deletions;
      if (found : bool) && (d <? max_removals cfg) then
        sections ← call CFindSections find_sections;
        for_sections fuel' sections;;
        call (CGet library_page_url') (get library_page_url');;
        attempt_loop fuel' library_page_url'
      else mret tt
  end.

(** [cfg.max_page and library_page_num >= cfg.max_page] (line 234) *)
Definition max_page_reached (library_page_num : Z) : bool :=
  match max_page cfg with
  | Some mp => negb (mp =? 0) && (library_page_num >=? mp)
  | None => false
  end.

(** The outer [while] of lines 159-239.  [next_button] is the local variable
    of that name: unbound until the first successful lookup, and keeping its
    last value when a lookup raises [NoSuchElementException]. *)
Fixpoint page_loop (fuel : nat) (library_page_num : Z)
    (next_button : option WebElement) : M W unit :=
  match fuel with
  | O => out_of_fuel
  | S fuel' =>
      d ← get_deletions;
      if d <? max_removals cfg then
        let url := library_page_url library_page_num in
        call (CGet url) (get url);;
        call CWaitLibrary wait_library;;
        attempt_loop fuel' url;;
        r ← try_ (call CFindNext find_next_button);
        next_button ← match r with
                      | Ok b => mret (Some b)
                      | Err NoSuchElementException => mret next_button
                      | Err e => raise e
                      end;
        if max_page_reached library_page_num then mret tt
        else
          let library_page_num := library_page_num + 1 in
          match next_button with
          | None => raise UnboundLocalError
          | Some b =>
              href ← call (CHref b) (get_href b);
              call (CGet (href_url href)) (get (href_url href));;
              page_loop fuel' library_page_num next_button
          end
      else mret tt
  end.

Definition first_page : Z :=
  match start_page cfg with
  | Some p => if negb (p =? 0) && (p >? 0) then p else 1
  | None => 1
  end.

Definition unscrobbler (fuel : nat) : M W Z :=
  call COpenLogin (open_login (lastfm_username cfg) (lastfm_password cfg));;
  logged_in ← login_loop fuel 0;
  if (logged_in : bool) then
    page_loop fuel first_page None;;
    mret EXIT_SUCCESS
  else mret EXIT_ERROR.

(** A run from a world in which nothing has happened yet. *)
Definition run (fuel : nat) (w : W) : Outcome Z * State W :=
  unscrobbler fuel (mk_state w 0 [] []).
End Controller.

(** ** The command line (lines 246-350) *)

(** The namespace [argparse] returns, with its defaults for absent flags. *)
Record Args := mk_args {
  arg_artists_file : option string;
  arg_titles_file : option string;
  arg_no_dry_run : bool;
  arg_year : option Z;
  arg_start_page : Z;
  arg_max_page : Z;
  arg_first_hr : option Z;
  arg_last_hr : option Z;
  arg_log_dir : option string;
  arg_max_removals : Z
}.

(** What opening a log file with mode [xt] can do. *)
Inductive OpenResult := Opened | FileExists | OpenFailed.

(** The process environment the script reads. *)
Record Env := mk_env {
  (* the lines of a text file as iteration yields them, or None when it cannot be opened *)
  env_lines : string -> option (list string);
  env_getenv : string -> option string;
  env_now_str : string;
  (* open(Path(dir) / name, mode='xt') *)
  env_open_x : string -> string -> OpenResult
}.

(** How the script proceeds: [sys.exit] with what [eprint] wrote to stderr, an
    exception nobody catches, the [FileExistsError] handler of lines 347-349,
    or the call of the core with its configuration. *)
Inductive MainOutcome :=
| SysExit (code : Z) (stderr : list string)
| Uncaught
| LogFileExists (code : Z)
| Core (cfg : UnscrobblerConfig).

Definition truthy_str (o : option string) : bool :=
  match o with Some s => negb (String.eqb s "") | None => false end.

(** [line.rstrip('\n')] *)
Fixpoint rstrip_newline (s : string) : string :=
  match s with
  | EmptyString => EmptyString
  | String c s' =>
      let r := rstrip_newline s' in
      if String.eqb r "" && Ascii.eqb c (Ascii.ascii_of_nat 10)
      then EmptyString else String c r
  end.

Section Main.
Variable args : Args.

(** lines 284-286 *)
Definition check_files : option string :=
  if negb (truthy_str (arg_artists_file args)) && negb (truthy_str (arg_titles_file args))
  then Some "At least one of --artists-file or --titles-file must be given."
  else None.

(** lines 287-290 *)
Definition check_year : option string :=
  match arg_year args with
  | Some y =>
      if (y <? 1970) || (y >? 2999)
      then Some ("Given --year '" +:+ pretty y +:+ "' seems incorrect.")
      else None
  | None => None
  end.

(** lines 291-293 *)
Definition check_hours_together : option string :=
  if (truthy (arg_first_hr args) && negb (truthy (arg_last_hr args)))
     || (truthy (arg_last_hr args) && negb (truthy (arg_first_hr args)))
  then Some "--first-hr and --last-hr must be used together."
  else None.

Definition hour_out_of_range (o : option Z) : bool :=
  match o with
  | Some h => negb (h =? 0) && ((h <? 0) || (h >? 23))
  | None => false
  end.

(** lines 294-297 *)
Definition check_hours_range : option string :=
  if hour_out_of_range (arg_first_hr args) || hour_out_of_range (arg_last_hr args)
  then Some "--first-hr and --last-hr must be between 0-23 (inclusive)."
  else None.

(** lines 298-300 *)
Definition check_max_removals : option string :=
  if arg_max_removals args <=? 0
  then Some "--max-removals must be a positive number."
  else None.

(** The five checks in the order the script makes them: the message of the
    first that fails. *)
Definition validate : option string :=
  match check_files with
  | Some msg => Some msg
  | None =>
  match check_year with
  | Some msg => Some msg
  | None =>
  match check_hours_together with
  | Some msg => Some msg
  | None =>
  match check_hours_range with
  | Some msg => Some msg
  | None => check_max_removals
  end end end end.

Variable env : Env.

(** lines 302-310: a set of the lines of the file, or the empty set. *)
Definition read_set (file : option string) : option (gset string) :=
  if truthy_str file then
    lines ← env_lines env (default "" file);
    Some (list_to_set (rstrip_newline <$> lines))
  else Some ∅.

Definition is_dry_run : bool := negb (arg_no_dry_run args).

(** lines 326-346: open the two log files when [--log-dir] is given. *)
Definition open_logs : OpenResult * bool :=
  if truthy_str (arg_log_dir args) then
    let dir := default "" (arg_log_dir args) in
    match env_open_x env dir ("geckodriver_" +:+ env_now_str env +:+ ".log") with
    | Opened =>
        (env_open_x env dir
           ("unscrobbler_" +:+ env_now_str env
              +:+ (if is_dry_run then "_dryrun" else "") +:+ ".log.jsonl"),
         true)
    | r => (r, true)
    end
  else (Opened, false).

Definition main : MainOutcome :=
  match validate with
  | Some msg => SysExit EXIT_ERROR [msg]
  | None =>
  match read_set (arg_artists_file args) with
  | None => Uncaught
  | Some delete_artists =>
  match read_set (arg_titles_file args) with
  | None => Uncaught
  | Some delete_titles =>
      let lastfm_user := env_getenv env "LASTFM_USERNAME" in
      let lastfm_pass := env_getenv env "LASTFM_PASSWORD" in
      if negb (truthy_str lastfm_user) || negb (truthy_str lastfm_pass) then
        SysExit EXIT_ERROR
          ["Last.fm username & password must be set using environment variables.";
           "Copy .env.sample to .env and fill it out to provide credentials."]
      else
        match open_logs with
        | (Opened, log_file) =>
            Core (mk_config (default "" lastfm_user) (default "" lastfm_pass)
                    is_dry_run delete_artists delete_titles
                    (arg_max_removals args) log_file (arg_year args)
                    (arg_first_hr args) (arg_last_hr args)
                    (Some (arg_start_page args)) (Some (arg_max_page args)))
        | (FileExists, _) => LogFileExists EXIT_ERROR
        | (OpenFailed, _) => Uncaught
        end
  end end end.
End Main.

(** ** A test double for the browser *)

(** A listing held in memory: pages of sections of rows.  Row handles are the
    rows' identifiers; the handle of a next button is the number of the page
    it was found on, and goes stale when another page is shown. *)
Record FixtureRow := mk_fixture_row {
  fr_id : nat;
  fr_track : string;
  fr_artist : string;
  fr_title : string
}.

Record Fixture := mk_fixture {
  fx_pages : list (list (list FixtureRow));
  fx_current : nat;
  fx_submit_failures : nat;
  fx_delete_failures : nat
}.

Definition fx_sections (w : Fixture) : list (list FixtureRow) :=
  default [] (fx_pages w !! pred (fx_current w)).

Definition fx_find_row (id : nat) (w : Fixture) : option FixtureRow :=
  List.find (fun r => Nat.eqb (fr_id r) id) (concat (fx_sections w)).

Definition fx_show (n : nat) (w : Fixture) : Fixture :=
  mk_fixture (fx_pages w) n (fx_submit_failures w) (fx_delete_failures w).

Definition fx_remove (id : nat) (w : Fixture) : Fixture :=
  mk_fixture
    (alter (fmap (List.filter (fun r => negb (Nat.eqb (fr_id r) id))))
       (pred (fx_current w)) (fx_pages w))
    (fx_current w) (fx_submit_failures w) (fx_delete_failures w).

Definition digit_of (c : Ascii.ascii) : option Z :=
  let n := Z.of_nat (Ascii.nat_of_ascii c) in
  if (48 <=? n) && (n <=? 57) then Some (n - 48) else None.

Fixpoint number_of (s : string) (acc : Z) : option Z :=
  match s with
  | EmptyString => Some acc
  | String c s' => d ← digit_of c; number_of s' (10 * acc + d)
  end.

(** Timestamps of the form [2021-06-01T10:00]. *)
Definition fx_parse (s : string) : result datetime :=
  match number_of (String.substring 0 4 s) 0,
        number_of (String.substring 11 2 s) 0 with
  | Some y, Some h =>
      if Nat.eqb (String.length s) 16 then Ok (mk_datetime y h) else Err ParserError
  | _, _ => Err ParserError
  end.

(** The double.  With [effective] the delete item removes the row from the
    page; without it the click succeeds and the listing stays as it is.  With
    [flaky] the more button raises as many times as the world says. *)
Definition fixture_driver (effective flaky : bool) : WebDriver Fixture := {|
  open_login _ _ w := (Ok tt, fx_show 0 w);
  click_submit w :=
    match fx_submit_failures w with
    | O => (Ok tt, w)
    | S n => (Err WebDriverException,
              mk_fixture (fx_pages w) (fx_current w) n (fx_delete_failures w))
    end;
  get u w :=
    match u with
    | login_page_url => (Ok tt, fx_show 0 w)
    | library_page_url n => (Ok tt, fx_show (Z.to_nat n) w)
    | href_url _ => (Ok tt, fx_show (S (fx_current w)) w)
    end;
  wait_library w := (Ok tt, w);
  find_sections w := (Ok (seq 0 (length (fx_sections w))), w);
  find_rows section w :=
    match fx_sections w !! section with
    | Some rows => (Ok (fr_id <$> rows), w)
    | None => (Err StaleElementReferenceException, w)
    end;
  read_row row w :=
    match fx_find_row row w with
    | Some r => (Ok (mk_row_text (fr_track r) (fr_artist r) row (fr_title r)), w)
    | None => (Err StaleElementReferenceException, w)
    end;
  focus_row row _ w :=
    match fx_find_row row w with
    | Some _ => (Ok row, w)
    | None => (Err StaleElementReferenceException, w)
    end;
  click_more_button m w :=
    match (if flaky then fx_delete_failures w else O) with
    | O => (Ok tt, w)
    | S n => (Err WebDriverException,
              mk_fixture (fx_pages w) (fx_current w) (fx_submit_failures w) n)
    end;
  click_delete_item m w := (Ok tt, if effective then fx_remove m w else w);
  find_next_button w :=
    if Nat.ltb (fx_current w) (length (fx_pages w))
    then (Ok (fx_current w), w)
    else (Err NoSuchElementException, w);
  get_href b w :=
    if Nat.eqb b (fx_current w) then (Ok "next", w)
    else (Err StaleElementReferenceException, w);
  dateutil_parse := fx_parse
|}.

(** The listing of the end-to-end scenario: one page, one section. *)
Definition scenario_page : list (list FixtureRow) :=
  [[mk_fixture_row 1 "T1" "A" "2021-06-01T10:00";
    mk_fixture_row 2 "T2" "B" "2021-06-01T23:00";
    mk_fixture_row 3 "T3" "A" "2021-06-02T10:00"]].

Definition scenario : Fixture := mk_fixture [scenario_page] 0 0 0.

Definition scenario_cfg (dry : bool) (budget : Z) (last_page : option Z)
    : UnscrobblerConfig :=
  mk_config "user" "pass" dry {[ "A" ]} ∅ budget true None None None
    (Some 1) last_page.

Definition run_on (effective flaky : bool) :=
  @run Fixture (fixture_driver effective flaky).

Definition summary {W} (r : Outcome Z * State W) :=
  (fst r, deletions (snd r), log_lines (snd r), ev_call <$> trace (snd r)).

(** ** A small program logic for the monad *)

Section Logic.
Context {W : Type}.
Implicit Types P Q R : State W -> Prop.

(** From a state in [P], the computation leaves a state in [Q], however it
    ends: with a value, with an exception, or cut off. *)
Definition hoare {A} P (m : M W A) Q : Prop :=
  forall st, P st -> Q (snd (m st)).

Lemma hoare_conseq {A} P P' Q Q' (m : M W A) :
  hoare P' m Q' -> (forall st, P st -> P' st) -> (forall st, Q' st -> Q st) ->
  hoare P m Q.
Proof. unfold hoare. auto. Qed.

Lemma hoare_ret {A} P (a : A) : hoare P (mret a) P.
Proof. intros st HP. exact HP. Qed.

Lemma hoare_raise {A} P e : hoare P (raise e : M W A) P.
Proof. intros st HP. exact HP. Qed.

Lemma hoare_out_of_fuel {A} P : hoare P (out_of_fuel : M W A) P.
Proof. intros st HP. exact HP. Qed.

Lemma hoare_lift {A} P (r : result A) : hoare P (lift r) P.
Proof. intros st HP. destruct r; exact HP. Qed.

Lemma hoare_bind {A B} P R Q (m : M W A) (f : A -> M W B) :
  hoare P m R -> (forall a, hoare R (f a) Q) -> (forall st, R st -> Q st) ->
  hoare P (m ≫= f) Q.
Proof.
  intros Hm Hf HRQ st HP. specialize (Hm st HP).
  unfold mbind, M_bind. destruct (m st) as [[a | e |] st']; simpl in *; auto.
  apply Hf, Hm.
Qed.

Lemma hoare_seq {A B} P (m : M W A) (f : A -> M W B) :
  hoare P m P -> (forall a, hoare P (f a) P) -> hoare P (m ≫= f) P.
Proof. intros Hm Hf. eapply hoare_bind; eauto. Qed.

Lemma hoare_try {A} P Q (m : M W A) : hoare P m Q -> hoare P (try_ m) Q.
Proof.
  intros Hm st HP. specialize (Hm st HP). unfold try_.
  destruct (m st) as [[a | e |] st']; exact Hm.
Qed.

Lemma hoare_get_deletions {B} P Q (f : Z -> M W B) :
  (forall d, hoare (fun st => P st /\ deletions st = d) (f d) Q) ->
  hoare P (get_deletions ≫= f) Q.
Proof. intros Hf st HP. apply (Hf (deletions st) st). split; [exact HP | reflexivity]. Qed.

(** The state after a call: a new world and one more event. *)
Definition after_call (st : State W) (c : Call) (ok : bool) (w : W) : State W :=
  mk_state w (deletions st) (log_lines st)
    (trace st ++ [mk_event c ok (deletions st)]).

Lemma call_state {A} (c : Call) (op : W -> result A * W) st :
  snd (call c op st)
  = after_call st c (is_ok (fst (op (world st)))) (snd (op (world st))).
Proof. unfold call. destruct (op (world st)) as [[a | e] w]; reflexivity. Qed.

Lemma hoare_call {A} P Q (c : Call) (op : W -> result A * W) :
  (forall st ok w, P st -> Q (after_call st c ok w)) -> hoare P (call c op) Q.
Proof. intros H st HP. rewrite call_state. apply H, HP. Qed.
End Logic.

(** The calls that ask the site to delete: the two clicks of lines 208-212. *)
Definition is_deletion_call (c : Call) : bool :=
  match c with
  | CMoreButton _ | CDeleteItem _ => true
  | _ => false
  end.

(** The calls of the login phase (lines 138-148). *)
Definition is_login_call (c : Call) : bool :=
  match c with
  | COpenLogin | CSubmit => true
  | _ => false
  end.

(** The calls made on a row that is to be deleted. *)
Definition is_row_action (c : Call) : bool :=
  match c with
  | CFocusRow _ | CMoreButton _ | CDeleteItem _ => true
  | _ => false
  end.

(** ** An invariant rule for the controller

    [P] holds between rows, [Q] while one matching row is being deleted. *)

Section InvariantRule.
Context {W : Type} `{!WebDriver W}.
Variable cfg : UnscrobblerConfig.
Variables P Q : State W -> Prop.

Hypothesis P_login : forall st c ok w,
  is_login_call c = true -> P st -> P (after_call st c ok w).
Hypothesis P_call : forall st c ok w,
  is_login_call c = false -> is_row_action c = false ->
  P st -> P (after_call st c ok w).
Hypothesis P_enter : forall st track artist ts,
  P st -> deletions st < max_removals cfg ->
  should_delete cfg track artist ts = true -> Q st.
Hypothesis Q_focus : forall st row ok w,
  Q st -> Q (after_call st (CFocusRow row) ok w).
Hypothesis Q_delete : forall st c ok w,
  dry_run cfg = false -> is_deletion_call c = true ->
  Q st -> Q (after_call st c ok w).
Hypothesis Q_log : forall st d,
  Q st -> Q (mk_state (world st) (deletions st) (log_lines st ++ [d]) (trace st)).
Hypothesis Q_incr : forall st,
  Q st -> P (mk_state (world st) (deletions st + 1) (log_lines st) (trace st)).
Hypothesis Q_P : forall st, Q st -> P st.

Lemma exists_in_rows_inv rows : hoare P (exists_in_rows cfg rows) P.
Proof.
  induction rows as [| row rows IH]; simpl.
  - apply hoare_ret.
  - apply hoare_seq; [apply hoare_call; intros; apply P_call; auto |]. intros txt.
    apply hoare_seq; [apply hoare_lift |]. intros ts.
    destruct (should_delete _ _ _ _); [apply hoare_ret | exact IH].
Qed.

Lemma exists_in_sections_inv sections : hoare P (exists_in_sections cfg sections) P.
Proof.
  induction sections as [| section sections IH]; simpl.
  - apply hoare_ret.
  - apply hoare_seq; [apply hoare_call; intros; apply P_call; auto |]. intros rows.
    apply hoare_seq; [apply exists_in_rows_inv |]. intros [|]; [apply hoare_ret | exact IH].
Qed.

Lemma to_delete_exists_inv : hoare P (to_delete_exists cfg) P.
Proof.
  apply hoare_seq; [apply hoare_call; intros; apply P_call; auto |].
  intros sections. apply exists_in_sections_inv.
Qed.

Lemma login_loop_inv fuel n : hoare P (login_loop fuel n) P.
Proof.
  revert n. induction fuel as [| fuel IH]; intros n; simpl.
  - apply hoare_out_of_fuel.
  - apply hoare_seq.
    + apply hoare_try, hoare_call. intros; apply P_login; auto.
    + intros [[] | e]; [apply hoare_ret |].
      destruct (n + 1 >=? 12); [apply hoare_ret | apply IH].
Qed.

Lemma delete_retry_inv fuel more : hoare Q (delete_retry cfg fuel more) Q.
Proof.
  induction fuel as [| fuel IH]; simpl.
  - apply hoare_out_of_fuel.
  - apply hoare_seq.
    + apply hoare_try. destruct (dry_run cfg) eqn:Hdry; simpl.
      * apply hoare_ret.
      * apply hoare_seq; [| intros _]; apply hoare_call; intros;
          apply Q_delete; auto.
    + intros [[] | e]; [apply hoare_ret | exact IH].
Qed.

Lemma log_deleted_item_inv d : hoare Q (_unscrobbler_log_deleted_item cfg d) Q.
Proof.
  intros st HQ. unfold _unscrobbler_log_deleted_item.
  destruct (negb (log_file cfg)); simpl; [exact HQ | apply Q_log, HQ].
Qed.

Lemma delete_row_inv fuel row txt ts : hoare Q (delete_row cfg fuel row txt ts) P.
Proof.
  unfold delete_row.
  apply hoare_bind with (R := Q); [| | exact Q_P].
  { apply hoare_call. intros. apply Q_focus; auto. }
  intros more. apply hoare_bind with (R := Q); [apply delete_retry_inv | | exact Q_P].
  intros _. apply hoare_bind with (R := Q); [apply log_deleted_item_inv | | exact Q_P].
  intros _ st HQ. apply Q_incr, HQ.
Qed.

Lemma for_rows_inv fuel rows : hoare P (for_rows cfg fuel rows) P.
Proof.
  induction rows as [| row rows IH]; simpl.
  - apply hoare_ret.
  - apply hoare_get_deletions. intros d.
    destruct (d >=? max_removals cfg) eqn:Hd.
    { eapply hoare_conseq; [apply (hoare_ret P) | tauto | auto]. }
    rewrite Z.geb_leb, Z.leb_gt in Hd.
    set (P' := fun st : State W => P st /\ deletions st = d).
    assert (HP' : forall st, P' st -> P st) by (unfold P'; tauto).
    apply hoare_bind with (R := P'); [| | exact HP'].
    { apply hoare_call. intros st ok w [HP <-]. split; [apply P_call; auto | reflexivity]. }
    intros txt. apply hoare_bind with (R := P'); [apply hoare_lift | | exact HP'].
    intros ts. destruct (should_delete _ _ _ _) eqn:Hsd.
    2: { eapply hoare_conseq; [exact IH | exact HP' | auto]. }
    apply hoare_conseq with (P' := Q) (Q' := P); [| | auto].
    2: { intros st [HP <-]. eapply P_enter; eauto. }
    apply hoare_bind with (R := P); [apply delete_row_inv | intros _; exact IH | auto].
Qed.

Lemma for_sections_inv fuel sections : hoare P (for_sections cfg fuel sections) P.
Proof.
  induction sections as [| section sections IH]; simpl.
  - apply hoare_ret.
  - apply hoare_get_deletions. intros d.
    apply hoare_conseq with (P' := P) (Q' := P); [| tauto | auto].
    destruct (d >=? max_removals cfg); [apply hoare_ret |].
    apply hoare_seq; [apply hoare_call; intros; apply P_call; auto |]. intros rows.
    apply hoare_seq; [apply for_rows_inv | intros _; exact IH].
Qed.

Lemma attempt_loop_inv fuel url : hoare P (attempt_loop cfg fuel url) P.
Proof.
  induction fuel as [| fuel IH]; simpl.
  - apply hoare_out_of_fuel.
  - apply hoare_seq; [apply to_delete_exists_inv |]. intros found.
    apply hoare_get_deletions. intros d.
    apply hoare_conseq with (P' := P) (Q' := P); [| tauto | auto].
    destruct (found && (d <? max_removals cfg)); [| apply hoare_ret].
    apply hoare_seq; [apply hoare_call; intros; apply P_call; auto |]. intros sections.
    apply hoare_seq; [apply for_sections_inv |]. intros _.
    apply hoare_seq; [apply hoare_call; intros; apply P_call; auto |]. intros _.
    exact IH.
Qed.

Lemma page_loop_inv fuel page next_button :
  hoare P (page_loop cfg fuel page next_button) P.
Proof.
  revert page next_button. induction fuel as [| fuel IH]; intros page nb; simpl.
  - apply hoare_out_of_fuel.
  - apply hoare_get_deletions. intros d.
    apply hoare_conseq with (P' := P) (Q' := P); [| tauto | auto].
    destruct (d <? max_removals cfg); [| apply hoare_ret].
    apply hoare_seq; [apply hoare_call; intros; apply P_call; auto |]. intros _.
    apply hoare_seq; [apply hoare_call; intros; apply P_call; auto |]. intros _.
    apply hoare_seq; [apply attempt_loop_inv |]. intros _.
    apply hoare_seq; [apply hoare_try, hoare_call; intros; apply P_call; auto |].
    intros r. apply hoare_seq.
    { destruct r as [b | []]; first [apply hoare_ret | apply hoare_raise]. }
    intros nb'. destruct (max_page_reached cfg page); [apply hoare_ret |].
    destruct nb' as [b |]; [| apply hoare_raise].
    apply hoare_seq; [apply hoare_call; intros; apply P_call; auto |]. intros href.
    apply hoare_seq; [apply hoare_call; intros; apply P_call; auto |]. intros _.
    apply IH.
Qed.

Lemma unscrobbler_inv fuel : hoare P (unscrobbler cfg fuel) P.
Proof.
  apply hoare_seq; [apply hoare_call; intros; apply P_login; auto |]. intros _.
  apply hoare_seq; [apply login_loop_inv |]. intros [|]; [| apply hoare_ret].
  apply hoare_seq; [apply page_loop_inv | intros _; apply hoare_ret].
Qed.

(** Whatever holds of the initial state and is kept by the steps above holds
    of the state a run has reached, for every amount of fuel. *)
Lemma run_inv fuel w : P (mk_state w 0 [] []) -> P (snd (run cfg fuel w)).
Proof. intros H0. apply unscrobbler_inv, H0. Qed.
End InvariantRule.

(** ** The predicate *)

Lemma should_delete_no_match cfg track artist ts :
  artist ∉ delete_artists cfg -> track ∉ delete_titles cfg ->
  should_delete cfg track artist ts = false.
Proof.
  intros Ha Ht. unfold should_delete.
  rewrite (bool_decide_eq_false_2 _ Ha), (bool_decide_eq_false_2 _ Ht). reflexivity.
Qed.

Lemma should_delete_match cfg track artist ts :
  artist ∈ delete_artists cfg \/ track ∈ delete_titles cfg ->
  should_delete cfg track artist ts =
    let hour := dt_hour ts in
    let delete :=
      match first_hr cfg, last_hr cfg with
      | Some start_hour, Some stop_hour =>
          if start_hour >? stop_hour then
            (hour >=? start_hour) || (hour <=? stop_hour)
          else if stop_hour >? start_hour then
            (start_hour <=? hour) && (hour <=? stop_hour)
          else hour =? start_hour
      | _, _ => true
      end in
    match year cfg with
    | Some year_to_use => dt_year ts =? year_to_use
    | None => delete
    end.
Proof.
  intros Hm. unfold should_delete.
  destruct (bool_decide (artist ∈ delete_artists cfg)) eqn:Ea;
    destruct (bool_decide (track ∈ delete_titles cfg)) eqn:Et; try reflexivity.
  apply bool_decide_eq_false in Ea, Et. tauto.
Qed.

(** C2: for a record that matches by artist or by title, with both the hour
    range and the year configured, [should_delete] is the year check alone;
    for a record that matches by neither it is false, whatever the year and
    the hour range. *)
Theorem should_delete_year_has_final_word cfg track artist ts :
  (forall start_hour stop_hour y,
      first_hr cfg = Some start_hour -> last_hr cfg = Some stop_hour ->
      year cfg = Some y ->
      artist ∈ delete_artists cfg \/ track ∈ delete_titles cfg ->
      should_delete cfg track artist ts = (dt_year ts =? y))
  /\ (artist ∉ delete_artists cfg -> track ∉ delete_titles cfg ->
      should_delete cfg track artist ts = false).
Proof.
  split.
  - intros start_hour stop_hour y Hf Hl Hy Hm.
    rewrite (should_delete_match _ _ _ _ Hm), Hy. reflexivity.
  - apply should_delete_no_match.
Qed.

(** The configuration of the precedence example: artist A, hours 22 to 2,
    year 2019. *)
Definition precedence_cfg : UnscrobblerConfig :=
  mk_config "user" "pass" true {[ "A" ]} ∅ 10 true (Some 2019) (Some 22) (Some 2)
    (Some 1) (Some 20).

Lemma should_delete_year_has_final_word_witness :
  should_delete precedence_cfg "T" "A" (mk_datetime 2020 23) = (2020 =? 2019)
  /\ should_delete precedence_cfg "T" "B" (mk_datetime 2019 23) = false.
Proof.
  destruct (should_delete_year_has_final_word precedence_cfg "T" "A" (mk_datetime 2020 23))
    as [Hyear _].
  destruct (should_delete_year_has_final_word precedence_cfg "T" "B" (mk_datetime 2019 23))
    as [_ Hnone].
  split.
  - apply (Hyear 22 2 2019); try reflexivity. left. vm_compute. set_solver.
  - apply Hnone; vm_compute; set_solver.
Defined.

(** C5: for a record that matches by artist or by title, with the hour range
    set and no year, [should_delete] holds exactly when the hour passes the
    rule of three cases: across midnight, inside the range, or equal bounds. *)
Theorem should_delete_hour_range cfg track artist ts start_hour stop_hour :
  first_hr cfg = Some start_hour -> last_hr cfg = Some stop_hour ->
  year cfg = None ->
  artist ∈ delete_artists cfg \/ track ∈ delete_titles cfg ->
  should_delete cfg track artist ts = true <->
    (start_hour > stop_hour /\ (dt_hour ts >= start_hour \/ dt_hour ts <= stop_hour))
    \/ (stop_hour > start_hour /\ start_hour <= dt_hour ts <= stop_hour)
    \/ (start_hour = stop_hour /\ dt_hour ts = start_hour).
Proof.
  intros Hf Hl Hy Hm. rewrite (should_delete_match _ _ _ _ Hm), Hf, Hl, Hy. simpl.
  destruct (Z.gtb_spec start_hour stop_hour) as [H1 | H1].
  - rewrite orb_true_iff, Z.geb_le, Z.leb_le. lia.
  - destruct (Z.gtb_spec stop_hour start_hour) as [H2 | H2].
    + rewrite andb_true_iff, !Z.leb_le. lia.
    + rewrite Z.eqb_eq. lia.
Qed.

(** The configuration of the midnight example: artist A, hours 22 to 2. *)
Definition midnight_cfg : UnscrobblerConfig :=
  mk_config "user" "pass" true {[ "A" ]} ∅ 10 true None (Some 22) (Some 2)
    (Some 1) (Some 20).

Lemma artist_A_listed : "A" ∈ delete_artists midnight_cfg \/ "T" ∈ delete_titles midnight_cfg.
Proof. left. simpl. set_solver. Qed.

Lemma should_delete_hour_range_witness :
  should_delete midnight_cfg "T" "A" (mk_datetime 2021 23) = true <->
    (22 > 2 /\ (23 >= 22 \/ 23 <= 2))
    \/ (2 > 22 /\ 22 <= 23 <= 2)
    \/ (22 = 2 /\ 23 = 22).
Proof.
  apply (should_delete_hour_range midnight_cfg "T" "A" (mk_datetime 2021 23) 22 2);
    [reflexivity | reflexivity | reflexivity | exact artist_A_listed].
Defined.

Example midnight_hour_23 : should_delete midnight_cfg "T" "A" (mk_datetime 2021 23) = true.
Proof. vm_compute. reflexivity. Qed.

Example midnight_hour_3 : should_delete midnight_cfg "T" "A" (mk_datetime 2021 3) = false.
Proof. vm_compute. reflexivity. Qed.

(** ** The command line *)

Lemma validate_exits args env msg :
  validate args = Some msg -> main args env = SysExit EXIT_ERROR [msg].
Proof. intros H. unfold main. rewrite H. reflexivity. Qed.

Lemma validate_some_of_year args msg :
  check_year args = Some msg -> exists msg', validate args = Some msg'.
Proof.
  intros H. unfold validate. destruct (check_files args); [eauto |].
  rewrite H. eauto.
Qed.

(** C10: a year below 1970 or above 2999 ends the script with a non-zero
    status and one line on stderr, and the core is not called; a year from
    1970 to 2999 passes the year check. *)
Theorem year_is_range_checked args env y :
  arg_year args = Some y ->
  (y < 1970 \/ y > 2999 ->
     exists code msg, main args env = SysExit code [msg] /\ code <> 0)
  /\ (1970 <= y <= 2999 -> check_year args = None).
Proof.
  intros Hy. split.
  - intros Hout.
    destruct (validate_some_of_year args
                ("Given --year '" +:+ pretty y +:+ "' seems incorrect.")) as [msg Hmsg].
    + unfold check_year. rewrite Hy.
      replace ((y <? 1970) || (y >? 2999)) with true; [reflexivity |].
      symmetry. apply orb_true_iff. rewrite Z.ltb_lt, Z.gtb_ltb, Z.ltb_lt. lia.
    + exists EXIT_ERROR, msg. split; [apply validate_exits, Hmsg | discriminate].
  - intros Hin. unfold check_year. rewrite Hy.
    replace ((y <? 1970) || (y >? 2999)) with false; [reflexivity |].
    symmetry. apply orb_false_iff. rewrite Z.ltb_ge, Z.gtb_ltb, Z.ltb_ge. lia.
Qed.

(** An environment with both credentials and no files. *)
Definition demo_env : Env :=
  mk_env (fun _ => Some []) (fun _ => Some "secret") "20240101-000000" (fun _ _ => Opened).

Definition demo_args (y : option Z) (first last : option Z) : Args :=
  mk_args (Some "artists.txt") None false y 1 20 first last None 100.

Lemma year_is_range_checked_witness :
  (1969 < 1970 \/ 1969 > 2999 ->
     exists code msg,
       main (demo_args (Some 1969) None None) demo_env = SysExit code [msg] /\ code <> 0)
  /\ (1970 <= 1969 <= 2999 -> check_year (demo_args (Some 1969) None None) = None).
Proof.
  apply (year_is_range_checked (demo_args (Some 1969) None None) demo_env 1969).
  reflexivity.
Defined.

Example year_1969_exits :
  main (demo_args (Some 1969) None None) demo_env
  = SysExit 1 ["Given --year '1969' seems incorrect."].
Proof. vm_compute. reflexivity. Qed.

Example year_2999_runs_core :
  exists cfg, main (demo_args (Some 2999) None None) demo_env = Core cfg.
Proof. eexists. reflexivity. Qed.

(** C7: the hours 0 and 5, given together and both in range, are turned away
    as if one were missing, and an hour 0 given alone passes: the checks of
    lines 291-297 take the integer 0 for an absent flag. *)
Theorem hour_zero_is_taken_for_absent :
  main (demo_args None (Some 0) (Some 5)) demo_env
    = SysExit EXIT_ERROR ["--first-hr and --last-hr must be used together."]
  /\ validate (demo_args None (Some 0) None) = None
  /\ validate (demo_args None (Some 7) (Some 5)) = None.
Proof. repeat split; vm_compute; reflexivity. Qed.

(** ** The removal budget *)

(** A call was made within the budget: the counter did not exceed
    [max_removals], and was below it if the call asks for a deletion. *)
Definition within_budget (cfg : UnscrobblerConfig) (e : Event) : Prop :=
  ev_deletions e <= max_removals cfg
  /\ (is_deletion_call (ev_call e) = true -> ev_deletions e < max_removals cfg).

Definition budget_kept {W} (cfg : UnscrobblerConfig) (st : State W) : Prop :=
  deletions st <= max_removals cfg /\ Forall (within_budget cfg) (trace st).

Definition budget_left {W} (cfg : UnscrobblerConfig) (st : State W) : Prop :=
  deletions st < max_removals cfg /\ Forall (within_budget cfg) (trace st).

Lemma Forall_snoc {A} (R : A -> Prop) (l : list A) (x : A) :
  Forall R l -> R x -> Forall R (l ++ [x]).
Proof. intros Hl Hx. apply Forall_app. split; [exact Hl | constructor; [exact Hx | constructor]]. Qed.

(** C1: with a budget that is not negative, a run, complete or cut off after
    any amount of fuel, ends with the counter at most [max_removals]; none of
    its calls was made with the counter above [max_removals], and every call
    asking for a deletion was made with the counter strictly below it. *)
Theorem budget_never_exceeded {W} `{!WebDriver W} (cfg : UnscrobblerConfig)
    (fuel : nat) (w : W) :
  0 <= max_removals cfg ->
  deletions (snd (run cfg fuel w)) <= max_removals cfg
  /\ Forall (within_budget cfg) (trace (snd (run cfg fuel w))).
Proof.
  intros Hmax.
  apply (run_inv cfg (budget_kept cfg) (budget_left cfg)); unfold budget_kept, budget_left.
  - intros st c ok w' Hc [Hd Ht]. split; [exact Hd |].
    apply Forall_snoc; [exact Ht |]. split; simpl; [exact Hd |].
    destruct c; simpl in *; congruence.
  - intros st c ok w' _ Hc [Hd Ht]. split; [exact Hd |].
    apply Forall_snoc; [exact Ht |]. split; simpl; [exact Hd |].
    destruct c; simpl in *; congruence.
  - intros st _ _ _ [_ Ht] Hlt _. split; [exact Hlt | exact Ht].
  - intros st row ok w' [Hd Ht]. split; [exact Hd |].
    apply Forall_snoc; [exact Ht |]. split; simpl; [lia | discriminate].
  - intros st c ok w' _ _ [Hd Ht]. split; [exact Hd |].
    apply Forall_snoc; [exact Ht |]. split; simpl; [lia | intros _; exact Hd].
  - intros st d H. exact H.
  - intros st [Hd Ht]. split; simpl; [lia | exact Ht].
  - intros st [Hd Ht]. split; [lia | exact Ht].
  - split; simpl; [exact Hmax | constructor].
Qed.

Lemma budget_never_exceeded_witness :
  deletions (snd (run_on true false (scenario_cfg false 1 (Some 1)) 20 scenario)) <= 1
  /\ Forall (within_budget (scenario_cfg false 1 (Some 1)))
       (trace (snd (run_on true false (scenario_cfg false 1 (Some 1)) 20 scenario))).
Proof.
  apply (@budget_never_exceeded Fixture (fixture_driver true false)
           (scenario_cfg false 1 (Some 1)) 20 scenario).
  simpl. lia.
Defined.

Example budget_one_stops_mid_page :
  summary (run_on true false (scenario_cfg false 1 (Some 1)) 20 scenario)
  = (Val 0, 1,
     [mk_log_entry "T1" "A" "2021-06-01T10:00" (mk_datetime 2021 10)],
     [COpenLogin; CSubmit; CGet (library_page_url 1); CWaitLibrary;
      CFindSections; CFindRows 0%nat; CReadRow 1%nat;
      CFindSections; CFindRows 0%nat; CReadRow 1%nat; CFocusRow 1%nat;
      CMoreButton 1%nat; CDeleteItem 1%nat;
      CGet (library_page_url 1); CFindSections; CFindRows 0%nat;
      CReadRow 2%nat; CReadRow 3%nat; CFindNext]).
Proof. vm_compute. reflexivity. Qed.

(** ** Empty lists *)

Definition no_row_action (e : Event) : Prop := is_row_action (ev_call e) = false.

Definition untouched {W} (st : State W) : Prop :=
  deletions st = 0 /\ log_lines st = [] /\ Forall no_row_action (trace st).

(** C9: with both sets empty [should_delete] is false for every record,
    whatever the year and the hours, and in every state a run reaches the
    counter is 0, the log is empty and no row was focused or deleted. *)
Theorem empty_lists_delete_nothing {W} `{!WebDriver W} (cfg : UnscrobblerConfig) :
  delete_artists cfg = ∅ -> delete_titles cfg = ∅ ->
  (forall track artist ts, should_delete cfg track artist ts = false)
  /\ (forall fuel (w : W), untouched (snd (run cfg fuel w))).
Proof.
  intros Ha Ht.
  assert (Hsd : forall track artist ts, should_delete cfg track artist ts = false).
  { intros. apply should_delete_no_match; [rewrite Ha | rewrite Ht]; apply not_elem_of_empty. }
  split; [exact Hsd |]. intros fuel w.
  apply (run_inv cfg untouched (fun _ => False)); unfold untouched; try tauto.
  - intros st c ok w' Hc (Hd & Hl & Htr). repeat split; try assumption.
    apply Forall_snoc; [exact Htr |]. destruct c; try discriminate; reflexivity.
  - intros st c ok w' _ Hc (Hd & Hl & Htr). repeat split; try assumption.
    apply Forall_snoc; [exact Htr | exact Hc].
  - intros st track artist ts _ _ Htrue. rewrite Hsd in Htrue. discriminate.
  - repeat split. constructor.
Qed.

(** A configuration whose two sets are empty, with a year and hours set. *)
Definition empty_cfg : UnscrobblerConfig :=
  mk_config "user" "pass" false ∅ ∅ 10 true (Some 2021) (Some 0) (Some 23)
    (Some 1) (Some 1).

Lemma empty_lists_delete_nothing_witness :
  (forall track artist ts, should_delete empty_cfg track artist ts = false)
  /\ (forall fuel (w : Fixture),
        untouched (snd (run_on true false empty_cfg fuel w))).
Proof.
  apply (@empty_lists_delete_nothing Fixture (fixture_driver true false) empty_cfg);
    reflexivity.
Defined.

Example empty_lists_on_scenario :
  summary (run_on true false empty_cfg 20 scenario)
  = (Val 0, 0, [],
     [COpenLogin; CSubmit; CGet (library_page_url 1); CWaitLibrary;
      CFindSections; CFindRows 0%nat; CReadRow 1%nat; CReadRow 2%nat;
      CReadRow 3%nat; CFindNext]).
Proof. vm_compute. reflexivity. Qed.

(** ** The end of the listing *)

(** A listing of two pages: the scenario, then a page with one more row. *)
Definition two_pages : Fixture :=
  mk_fixture [scenario_page; [[mk_fixture_row 4 "T4" "A" "2021-06-03T10:00"]]] 0 0 0.

(** C6: a page without a next button does not end the run with
    [EXIT_SUCCESS] unless the configured last page is reached.  On the first
    page line 239 finds [next_button] unbound and raises, with matches left
    or with the budget used up, with a last page configured or none; on a
    later page it uses the button of the page before, which is stale. *)
Theorem last_page_without_next_button_raises :
  fst (run_on true false (scenario_cfg false 10 (Some 20)) 20 scenario)
    = Raise UnboundLocalError
  /\ fst (run_on true false (scenario_cfg false 10 None) 20 scenario)
    = Raise UnboundLocalError
  /\ fst (run_on true false (scenario_cfg false 2 (Some 20)) 20 scenario)
    = Raise UnboundLocalError
  /\ fst (run_on true false (scenario_cfg false 10 (Some 20)) 20 two_pages)
    = Raise StaleElementReferenceException
  /\ fst (run_on true false (scenario_cfg false 10 (Some 1)) 20 scenario)
    = Val EXIT_SUCCESS.
Proof. repeat split; vm_compute; reflexivity. Qed.

(** ** Dry runs *)

Definition no_deletion_call (e : Event) : Prop := is_deletion_call (ev_call e) = false.

(** The same configuration with another value of [dry_run]. *)
Definition with_dry_run (b : bool) (cfg : UnscrobblerConfig) : UnscrobblerConfig :=
  mk_config (lastfm_username cfg) (lastfm_password cfg) b (delete_artists cfg)
    (delete_titles cfg) (max_removals cfg) (log_file cfg) (year cfg)
    (first_hr cfg) (last_hr cfg) (start_page cfg) (max_page cfg).

Lemma dry_run_makes_no_deletion_call {W} `{!WebDriver W} (cfg : UnscrobblerConfig)
    (fuel : nat) (w : W) :
  dry_run cfg = true -> Forall no_deletion_call (trace (snd (run cfg fuel w))).
Proof.
  intros Hdry.
  apply (run_inv cfg (fun st => Forall no_deletion_call (trace st))
           (fun st => Forall no_deletion_call (trace st))); try tauto.
  - intros st c ok w' Hc Ht. apply Forall_snoc; [exact Ht |].
    destruct c; try discriminate; reflexivity.
  - intros st c ok w' _ Hc Ht. apply Forall_snoc; [exact Ht |].
    destruct c; try discriminate; reflexivity.
  - intros st row ok w' Ht. apply Forall_snoc; [exact Ht | reflexivity].
  - intros st c ok w' Hreal. rewrite Hdry in Hreal. discriminate.
  - constructor.
Qed.

Section DryRunSimulation.
Context {W : Type} `{!WebDriver W}.
Variable cfg : UnscrobblerConfig.

(** The two clicks of a deletion succeed and leave the world as it is. *)
Hypothesis more_inert : forall m (w : W), click_more_button m w = (Ok tt, w).
Hypothesis delete_inert : forall m (w : W), click_delete_item m w = (Ok tt, w).

Let dry := with_dry_run true cfg.
Let real := with_dry_run false cfg.

Definition keep_other_calls (t : list Event) : list Event :=
  List.filter (fun e => negb (is_deletion_call (ev_call e))) t.

(** The dry state [s1] and the real state [s2] agree on everything but the
    deletion calls in the trace. *)
Definition sim (s1 s2 : State W) : Prop :=
  world s1 = world s2 /\ deletions s1 = deletions s2
  /\ log_lines s1 = log_lines s2
  /\ trace s1 = keep_other_calls (trace s2).

Definition msim {A} (m1 m2 : M W A) : Prop :=
  forall s1 s2, sim s1 s2 ->
    fst (m1 s1) = fst (m2 s2) /\ sim (snd (m1 s1)) (snd (m2 s2)).

Lemma msim_ret {A} (a : A) : msim (mret a) (mret a).
Proof. intros s1 s2 H. split; [reflexivity | exact H]. Qed.

Lemma msim_raise {A} e : msim (raise e : M W A) (raise e).
Proof. intros s1 s2 H. split; [reflexivity | exact H]. Qed.

Lemma msim_out_of_fuel {A} : msim (out_of_fuel : M W A) out_of_fuel.
Proof. intros s1 s2 H. split; [reflexivity | exact H]. Qed.

Lemma msim_lift {A} (r : result A) : msim (lift r) (lift r).
Proof. destruct r; [apply msim_ret | apply msim_raise]. Qed.

Lemma msim_bind {A B} (m1 m2 : M W A) (f1 f2 : A -> M W B) :
  msim m1 m2 -> (forall a, msim (f1 a) (f2 a)) -> msim (m1 ≫= f1) (m2 ≫= f2).
Proof.
  intros Hm Hf s1 s2 Hs. destruct (Hm s1 s2 Hs) as [Ho Hs'].
  unfold mbind, M_bind.
  destruct (m1 s1) as [o1 t1], (m2 s2) as [o2 t2]; simpl in *. subst o2.
  destruct o1 as [a | e |]; [apply Hf, Hs' | |]; split; [reflexivity | exact Hs' | reflexivity | exact Hs'].
Qed.

Lemma msim_try {A} (m1 m2 : M W A) : msim m1 m2 -> msim (try_ m1) (try_ m2).
Proof.
  intros Hm s1 s2 Hs. destruct (Hm s1 s2 Hs) as [Ho Hs']. unfold try_.
  destruct (m1 s1) as [o1 t1], (m2 s2) as [o2 t2]; simpl in *. subst o2.
  destruct o1; split; solve [reflexivity | exact Hs'].
Qed.

Lemma keep_other_calls_snoc t e :
  keep_other_calls (t ++ [e])
  = keep_other_calls t ++ (if is_deletion_call (ev_call e) then [] else [e]).
Proof.
  unfold keep_other_calls. rewrite List.filter_app. simpl.
  destruct (is_deletion_call (ev_call e)); reflexivity.
Qed.

Lemma msim_call {A} (c : Call) (op : W -> result A * W) :
  is_deletion_call c = false -> msim (call c op) (call c op).
Proof.
  intros Hc s1 s2 (Hw & Hd & Hl & Ht). unfold call. rewrite Hw.
  destruct (op (world s2)) as [r w]. rewrite Hd, Hl, Ht.
  assert (Hs : sim
    (mk_state w (deletions s2) (log_lines s2)
       (keep_other_calls (trace s2) ++ [mk_event c (is_ok r) (deletions s2)]))
    (mk_state w (deletions s2) (log_lines s2)
       (trace s2 ++ [mk_event c (is_ok r) (deletions s2)]))).
  { repeat split. simpl. rewrite keep_other_calls_snoc. simpl. rewrite Hc. reflexivity. }
  destruct r; split; solve [reflexivity | exact Hs].
Qed.

Lemma msim_get_deletions : msim get_deletions get_deletions.
Proof.
  intros s1 s2 Hs. split; [| exact Hs].
  destruct Hs as (_ & Hd & _). unfold get_deletions. simpl. rewrite Hd. reflexivity.
Qed.

Lemma msim_incr_deletions : msim incr_deletions incr_deletions.
Proof.
  intros s1 s2 (Hw & Hd & Hl & Ht). split; [reflexivity |].
  unfold incr_deletions, sim. simpl. rewrite Hd. auto.
Qed.

Lemma msim_log d :
  msim (_unscrobbler_log_deleted_item dry d) (_unscrobbler_log_deleted_item real d).
Proof.
  intros s1 s2 (Hw & Hd & Hl & Ht). unfold _unscrobbler_log_deleted_item. simpl.
  destruct (negb (log_file cfg)); split; try reflexivity; unfold sim; simpl;
    rewrite ?Hl; auto.
Qed.

Lemma msim_exists_in_rows rows : msim (exists_in_rows dry rows) (exists_in_rows real rows).
Proof.
  induction rows as [| row rows IH]; simpl; [apply msim_ret |].
  apply msim_bind; [apply msim_call; reflexivity |]. intros txt.
  apply msim_bind; [apply msim_lift |]. intros ts.
  change (should_delete real (track_name txt) (artist_name txt) ts)
    with (should_delete dry (track_name txt) (artist_name txt) ts).
  destruct (should_delete dry _ _ _); [apply msim_ret | exact IH].
Qed.

Lemma msim_exists_in_sections sections :
  msim (exists_in_sections dry sections) (exists_in_sections real sections).
Proof.
  induction sections as [| section sections IH]; simpl; [apply msim_ret |].
  apply msim_bind; [apply msim_call; reflexivity |]. intros rows.
  apply msim_bind; [apply msim_exists_in_rows |].
  intros [|]; [apply msim_ret | exact IH].
Qed.

Lemma msim_to_delete_exists : msim (to_delete_exists dry) (to_delete_exists real).
Proof.
  apply msim_bind; [apply msim_call; reflexivity | apply msim_exists_in_sections].
Qed.

Lemma msim_login_loop fuel n : msim (login_loop fuel n) (login_loop fuel n).
Proof.
  revert n. induction fuel as [| fuel IH]; intros n; simpl; [apply msim_out_of_fuel |].
  apply msim_bind; [apply msim_try, msim_call; reflexivity |].
  intros [[] | e]; [apply msim_ret |].
  destruct (n + 1 >=? 12); [apply msim_ret | apply IH].
Qed.

(** One round of the retry: the dry run skips the two clicks, the real run
    makes them, they succeed, and both leave the loop. *)
Lemma msim_delete_retry fuel more :
  msim (delete_retry dry fuel more) (delete_retry real fuel more).
Proof.
  destruct fuel as [| fuel]; simpl; [apply msim_out_of_fuel |].
  intros s1 s2 (Hw & Hd & Hl & Ht).
  unfold mbind, M_bind, try_, call. simpl.
  rewrite more_inert. simpl. rewrite delete_inert. simpl.
  split; [reflexivity |]. unfold sim. simpl.
  rewrite !keep_other_calls_snoc. simpl. rewrite !app_nil_r. auto.
Qed.

Lemma msim_for_rows fuel rows : msim (for_rows dry fuel rows) (for_rows real fuel rows).
Proof.
  induction rows as [| row rows IH]; simpl; [apply msim_ret |].
  apply msim_bind; [apply msim_get_deletions |]. intros d.
  destruct (d >=? max_removals cfg); [apply msim_ret |].
  apply msim_bind; [apply msim_call; reflexivity |]. intros txt.
  apply msim_bind; [apply msim_lift |]. intros ts.
  change (should_delete real (track_name txt) (artist_name txt) ts)
    with (should_delete dry (track_name txt) (artist_name txt) ts).
  destruct (should_delete dry _ _ _); [| exact IH].
  apply msim_bind; [| intros _; exact IH]. unfold delete_row.
  apply msim_bind; [apply msim_call; reflexivity |]. intros more.
  apply msim_bind; [apply msim_delete_retry |]. intros _.
  apply msim_bind; [apply msim_log |]. intros _. apply msim_incr_deletions.
Qed.

Lemma msim_for_sections fuel sections :
  msim (for_sections dry fuel sections) (for_sections real fuel sections).
Proof.
  induction sections as [| section sections IH]; simpl; [apply msim_ret |].
  apply msim_bind; [apply msim_get_deletions |]. intros d.
  destruct (d >=? max_removals cfg); [apply msim_ret |].
  apply msim_bind; [apply msim_call; reflexivity |]. intros rows.
  apply msim_bind; [apply msim_for_rows |]. intros _. exact IH.
Qed.

Lemma msim_attempt_loop fuel url :
  msim (attempt_loop dry fuel url) (attempt_loop real fuel url).
Proof.
  induction fuel as [| fuel IH]; simpl; [apply msim_out_of_fuel |].
  apply msim_bind; [apply msim_to_delete_exists |]. intros found.
  apply msim_bind; [apply msim_get_deletions |]. intros d.
  destruct (found && (d <? max_removals cfg)); [| apply msim_ret].
  apply msim_bind; [apply msim_call; reflexivity |]. intros sections.
  apply msim_bind; [apply msim_for_sections |]. intros _.
  apply msim_bind; [apply msim_call; reflexivity |]. intros _. exact IH.
Qed.

Lemma msim_page_loop fuel page nb :
  msim (page_loop dry fuel page nb) (page_loop real fuel page nb).
Proof.
  revert page nb. induction fuel as [| fuel IH]; intros page nb; simpl;
    [apply msim_out_of_fuel |].
  apply msim_bind; [apply msim_get_deletions |]. intros d.
  destruct (d <? max_removals cfg); [| apply msim_ret].
  apply msim_bind; [apply msim_call; reflexivity |]. intros _.
  apply msim_bind; [apply msim_call; reflexivity |]. intros _.
  apply msim_bind; [apply msim_attempt_loop |]. intros _.
  apply msim_bind; [apply msim_try, msim_call; reflexivity |]. intros r.
  apply msim_bind.
  { destruct r as [b | []]; first [apply msim_ret | apply msim_raise]. }
  intros nb'.
  change (max_page_reached real page) with (max_page_reached dry page).
  destruct (max_page_reached dry page); [apply msim_ret |].
  destruct nb' as [b |]; [| apply msim_raise].
  apply msim_bind; [apply msim_call; reflexivity |]. intros href.
  apply msim_bind; [apply msim_call; reflexivity |]. intros _. apply IH.
Qed.

Lemma msim_unscrobbler fuel : msim (unscrobbler dry fuel) (unscrobbler real fuel).
Proof.
  apply msim_bind; [apply msim_call; reflexivity |]. intros _.
  apply msim_bind; [apply msim_login_loop |]. intros [|]; [| apply msim_ret].
  apply msim_bind; [apply msim_page_loop | intros _; apply msim_ret].
Qed.
End DryRunSimulation.

(** The listing after which a dry run and a real run are compared: the
    scenario, with a budget of 5 and page 1 as the last page. *)
Definition dry_scenario : Outcome Z * State Fixture :=
  run_on true false (scenario_cfg true 5 (Some 1)) 20 scenario.
Definition real_scenario : Outcome Z * State Fixture :=
  run_on true false (scenario_cfg false 5 (Some 1)) 20 scenario.

(** C4 (as stated, refuted): on the scenario, whose two matching rows the real
    run deletes and logs once each, the dry run counts and logs five
    deletions: the rows stay listed, and every new scan finds them again. *)
Lemma dry_run_counts_rows_again :
  fst dry_scenario = Val EXIT_SUCCESS /\ fst real_scenario = Val EXIT_SUCCESS
  /\ deletions (snd real_scenario) = 2 /\ deletions (snd dry_scenario) = 5
  /\ log_track_title <$> log_lines (snd real_scenario) = ["T1"; "T3"]
  /\ log_track_title <$> log_lines (snd dry_scenario) = ["T1"; "T3"; "T1"; "T3"; "T1"]
  /\ ~ (deletions (snd dry_scenario) = deletions (snd real_scenario)
        /\ log_lines (snd dry_scenario) = log_lines (snd real_scenario)).
Proof.
  repeat split; try (vm_compute; reflexivity).
  intros [H _]. vm_compute in H. discriminate.
Qed.

(** C4 (amended): a dry run makes no deletion call; and over a browser whose
    deletion clicks succeed at once and leave the listing as it is, it ends as
    the run without dry-run does, in the same world, with the same counter
    and the same log, having made the same calls apart from the deletion
    calls. *)
Theorem dry_run_differs_by_deletion_calls_only {W} `{!WebDriver W}
    (cfg : UnscrobblerConfig) (fuel : nat) (w : W) :
  Forall no_deletion_call (trace (snd (run (with_dry_run true cfg) fuel w)))
  /\ ((forall m (w : W), click_more_button m w = (Ok tt, w)) ->
      (forall m (w : W), click_delete_item m w = (Ok tt, w)) ->
      fst (run (with_dry_run true cfg) fuel w) = fst (run (with_dry_run false cfg) fuel w)
      /\ world (snd (run (with_dry_run true cfg) fuel w))
         = world (snd (run (with_dry_run false cfg) fuel w))
      /\ deletions (snd (run (with_dry_run true cfg) fuel w))
         = deletions (snd (run (with_dry_run false cfg) fuel w))
      /\ log_lines (snd (run (with_dry_run true cfg) fuel w))
         = log_lines (snd (run (with_dry_run false cfg) fuel w))
      /\ trace (snd (run (with_dry_run true cfg) fuel w))
         = keep_other_calls (trace (snd (run (with_dry_run false cfg) fuel w)))).
Proof.
  split; [apply dry_run_makes_no_deletion_call; reflexivity |].
  intros Hmore Hdelete.
  destruct (msim_unscrobbler cfg Hmore Hdelete fuel
              (mk_state w 0 [] []) (mk_state w 0 [] [])) as [Ho (Hw & Hd & Hl & Ht)].
  { repeat split. }
  unfold run. auto.
Qed.

Lemma dry_run_differs_by_deletion_calls_only_witness :
  let cfg := scenario_cfg true 5 (Some 1) in
  let dry := run_on false false (with_dry_run true cfg) 20 scenario in
  let real := run_on false false (with_dry_run false cfg) 20 scenario in
  Forall no_deletion_call (trace (snd dry))
  /\ fst dry = fst real /\ world (snd dry) = world (snd real)
  /\ deletions (snd dry) = deletions (snd real)
  /\ log_lines (snd dry) = log_lines (snd real)
  /\ trace (snd dry) = keep_other_calls (trace (snd real)).
Proof.
  intros cfg dry real.
  destruct (@dry_run_differs_by_deletion_calls_only Fixture (fixture_driver false false)
              cfg 20 scenario) as [Hnone Hsame].
  split; [exact Hnone |].
  apply Hsame; intros m w; reflexivity.
Defined.

(** ** One pass over a page *)

(** Reading the trace in order: a row handle is fresh after the rows were
    fetched and stale once a deletion went through; the result is [false] when
    a stale handle is used. *)
Fixpoint rescans_from (stale : bool) (t : list Event) : bool :=
  match t with
  | [] => true
  | e :: t' =>
      match ev_call e with
      | CFindRows _ => rescans_from false t'
      | CDeleteItem _ => negb stale && rescans_from (ev_ok e) t'
      | CReadRow _ | CFocusRow _ | CMoreButton _ => negb stale && rescans_from stale t'
      | _ => rescans_from stale t'
      end
  end.

Definition rescans_after_each_deletion (t : list Event) : bool := rescans_from false t.

(** The calls that load the page or fetch handles from it. *)
Definition is_scan (c : Call) : bool :=
  match c with
  | CGet _ | CFindSections | CFindRows _ => true
  | _ => false
  end.

Definition no_scan (e : Event) : Prop := is_scan (ev_call e) = false.

(** The calls that load the page or look its sections up. *)
Definition is_page_scan (c : Call) : bool :=
  match c with
  | CGet _ | CFindSections => true
  | _ => false
  end.

Definition no_page_scan (e : Event) : Prop := is_page_scan (ev_call e) = false.

(** The rows read, in the order of the reads. *)
Fixpoint rows_read (t : list Event) : list WebElement :=
  match t with
  | [] => []
  | e :: t' =>
      match ev_call e with
      | CReadRow row => row :: rows_read t'
      | _ => rows_read t'
      end
  end.

Definition no_read (e : Event) : Prop :=
  match ev_call e with CReadRow _ => False | _ => True end.

(** The rows focused for deletion, in the order of the clicks. *)
Fixpoint rows_focused (t : list Event) : list WebElement :=
  match t with
  | [] => []
  | e :: t' =>
      match ev_call e with
      | CFocusRow row => row :: rows_focused t'
      | _ => rows_focused t'
      end
  end.

(** A call made to delete the row [row]: its focus, or a deletion click. *)
Definition acts_on (row : WebElement) (e : Event) : Prop :=
  match ev_call e with
  | CFocusRow r => r = row
  | CMoreButton _ | CDeleteItem _ => True
  | _ => False
  end.

Lemma rows_focused_app t1 t2 :
  rows_focused (t1 ++ t2) = rows_focused t1 ++ rows_focused t2.
Proof.
  induction t1 as [| e t1 IH]; simpl; [reflexivity |].
  destruct (ev_call e); simpl; rewrite IH; reflexivity.
Qed.

Lemma rows_focused_acts_on row t x :
  Forall (acts_on row) t -> x ∈ rows_focused t -> x = row.
Proof.
  induction 1 as [| e t He _ IH]; simpl; [intros Hx; apply elem_of_nil in Hx; tauto |].
  unfold acts_on in He. destruct (ev_call e); try tauto.
  intros Hx. apply elem_of_cons in Hx as [-> | Hx]; [exact He | apply IH, Hx].
Qed.

Lemma rows_read_app t1 t2 : rows_read (t1 ++ t2) = rows_read t1 ++ rows_read t2.
Proof.
  induction t1 as [| e t1 IH]; simpl; [reflexivity |].
  destruct (ev_call e); simpl; rewrite IH; reflexivity.
Qed.

Lemma rows_read_none t : Forall no_read t -> rows_read t = [].
Proof.
  induction 1 as [| e t He _ IH]; simpl; [reflexivity |].
  unfold no_read in He. destruct (ev_call e); tauto.
Qed.

Section Pass.
Context {W : Type} `{!WebDriver W}.
Variable cfg : UnscrobblerConfig.

(** The state [st] was reached from [st0] by calls that are all in [R]. *)
Definition extends (R : Event -> Prop) (st0 st : State W) : Prop :=
  exists delta, trace st = trace st0 ++ delta /\ Forall R delta.

Lemma extends_refl R st : extends R st st.
Proof. exists []. rewrite app_nil_r. split; [reflexivity | constructor]. Qed.

Lemma extends_call R st0 st c ok w :
  R (mk_event c ok (deletions st)) -> extends R st0 st -> extends R st0 (after_call st c ok w).
Proof.
  intros HR (delta & Ht & Hd). exists (delta ++ [mk_event c ok (deletions st)]).
  simpl. rewrite Ht, app_assoc. split; [reflexivity | apply Forall_snoc; assumption].
Qed.

Lemma delete_retry_trace fuel row more st0 :
  hoare (extends (acts_on row) st0) (delete_retry cfg fuel more)
    (extends (acts_on row) st0).
Proof.
  induction fuel as [| fuel IH]; simpl; [apply hoare_out_of_fuel |].
  apply hoare_seq.
  - apply hoare_try. destruct (negb (dry_run cfg)); [| apply hoare_ret].
    apply hoare_seq; [| intros _]; apply hoare_call; intros;
      apply extends_call; auto; exact I.
  - intros [[] | e]; [apply hoare_ret | exact IH].
Qed.

Lemma delete_row_trace fuel row txt ts st0 :
  hoare (extends (acts_on row) st0) (delete_row cfg fuel row txt ts)
    (extends (acts_on row) st0).
Proof.
  unfold delete_row.
  apply hoare_seq.
  { apply hoare_call; intros; apply extends_call; auto; reflexivity. }
  intros more. apply hoare_seq; [apply delete_retry_trace |]. intros _.
  apply hoare_seq.
  { intros st H. unfold _unscrobbler_log_deleted_item.
    destruct (negb (log_file cfg)); exact H. }
  intros _ st H. exact H.
Qed.

Lemma acts_on_no_scan row e : acts_on row e -> no_scan e.
Proof. unfold acts_on, no_scan. destruct (ev_call e); simpl; tauto. Qed.

Lemma acts_on_no_read row e : acts_on row e -> no_read e.
Proof. unfold acts_on, no_read. destruct (ev_call e); simpl; tauto. Qed.

(** What one [for] over the fetched list [rows] does to the trace: it adds
    no scan; the rows it reads are the first rows of the list, in order, and
    all of them when it ends normally with budget left; the rows it focuses
    for deletion are among the rows it read. *)
Definition pass_spec (rows : list WebElement) (st : State W)
    (r : Outcome unit * State W) : Prop :=
  exists delta,
    trace (snd r) = trace st ++ delta
    /\ Forall no_scan delta
    /\ rows_read delta `prefix_of` rows
    /\ (fst r = Val tt -> deletions (snd r) < max_removals cfg ->
        rows_read delta = rows)
    /\ rows_focused delta ⊆ rows_read delta.

Lemma bind_run {A B} (m : M W A) (f : A -> M W B) st :
  (m ≫= f) st =
    match m st with
    | (Val a, st') => f a st'
    | (Raise e, st') => (Raise e, st')
    | (OutOfFuel, st') => (OutOfFuel, st')
    end.
Proof. reflexivity. Qed.

Lemma for_rows_pass fuel rows st : pass_spec rows st (for_rows cfg fuel rows st).
Proof.
  revert st. induction rows as [| row rows IH]; intros st.
  { exists []. simpl. rewrite app_nil_r. repeat split; auto. }
  simpl. rewrite bind_run. simpl.
  destruct (deletions st >=? max_removals cfg) eqn:Hd.
  { exists []. simpl. rewrite app_nil_r. repeat split; auto.
    - apply prefix_nil.
    - intros _ Hlt. rewrite Z.geb_leb, Z.leb_le in Hd. lia. }
  rewrite bind_run.
  pose proof (call_state (CReadRow row) (read_row row) st) as Hst1.
  destruct (call (CReadRow row) (read_row row) st) as [o1 st1]. simpl in Hst1.
  set (ev := mk_event (CReadRow row) (is_ok (fst (read_row row (world st))))
               (deletions st)) in *.
  assert (Ht1 : trace st1 = trace st ++ [ev]) by (rewrite Hst1; reflexivity).
  assert (Hstop : forall (o : Outcome unit) st2,
            o <> Val tt -> extends (acts_on row) st1 st2 ->
            pass_spec (row :: rows) st (o, st2)).
  { intros o st2 Ho (d2 & Ht2 & Hd2). exists (ev :: d2). simpl.
    rewrite Ht2, Ht1, <- app_assoc. simpl. repeat split.
    - constructor; [reflexivity |]. eapply Forall_impl; [exact Hd2 |].
      apply acts_on_no_scan.
    - rewrite (rows_read_none d2).
      + apply prefix_cons, prefix_nil.
      + eapply Forall_impl; [exact Hd2 | apply acts_on_no_read].
    - intros Hval. contradiction.
    - intros x Hx. apply elem_of_cons. left.
      apply (rows_focused_acts_on row d2 x Hd2 Hx). }
  assert (Hgo : forall st2,
            extends (acts_on row) st1 st2 ->
            pass_spec (row :: rows) st (for_rows cfg fuel rows st2)).
  { intros st2 (d2 & Ht2 & Hd2).
    destruct (IH st2) as (d3 & Ht3 & Hd3 & Hpre & Hall & Hfoc).
    exists (ev :: d2 ++ d3). rewrite Ht3, Ht2, Ht1, <- !app_assoc. simpl.
    assert (Hread : rows_read (d2 ++ d3) = rows_read d3).
    { rewrite rows_read_app, (rows_read_none d2); [reflexivity |].
      eapply Forall_impl; [exact Hd2 | apply acts_on_no_read]. }
    rewrite Hread, rows_focused_app. repeat split.
    - constructor; [reflexivity |]. apply Forall_app. split; [| exact Hd3].
      eapply Forall_impl; [exact Hd2 | apply acts_on_no_scan].
    - apply prefix_cons, Hpre.
    - intros Hval Hlt. f_equal. apply Hall; assumption.
    - intros x Hx. apply elem_of_cons. apply elem_of_app in Hx as [Hx | Hx].
      + left. apply (rows_focused_acts_on row d2 x Hd2 Hx).
      + right. apply Hfoc, Hx. }
  destruct o1 as [txt | e |];
    [| apply Hstop; [discriminate | apply extends_refl]
     | apply Hstop; [discriminate | apply extends_refl]].
  rewrite bind_run.
  destruct (dateutil_parse (timestamp_string txt)) as [ts | e]; simpl;
    [| apply Hstop; [discriminate | apply extends_refl]].
  destruct (should_delete cfg (track_name txt) (artist_name txt) ts);
    [| apply Hgo, extends_refl].
  rewrite bind_run.
  pose proof (delete_row_trace fuel row txt ts st1 st1 (extends_refl _ _)) as Hrow.
  destruct (delete_row cfg fuel row txt ts st1) as [[[] | e |] st2]; simpl in Hrow.
  - apply Hgo, Hrow.
  - apply Hstop; [discriminate | exact Hrow].
  - apply Hstop; [discriminate | exact Hrow].
Qed.

Lemma extends_trans (R R' : Event -> Prop) st0 st1 st2 :
  (forall e, R' e -> R e) ->
  extends R st0 st1 -> extends R' st1 st2 -> extends R st0 st2.
Proof.
  intros Hsub (d1 & Ht1 & Hd1) (d2 & Ht2 & Hd2). exists (d1 ++ d2).
  rewrite Ht2, Ht1, app_assoc. split; [reflexivity |].
  apply Forall_app. split; [exact Hd1 |]. eapply Forall_impl; [exact Hd2 | exact Hsub].
Qed.

Lemma no_scan_no_page_scan e : no_scan e -> no_page_scan e.
Proof. unfold no_scan, no_page_scan. destruct (ev_call e); simpl; congruence. Qed.

Lemma for_sections_pass fuel sections st0 :
  hoare (extends no_page_scan st0) (for_sections cfg fuel sections)
    (extends no_page_scan st0).
Proof.
  induction sections as [| section sections IH]; simpl; [apply hoare_ret |].
  apply hoare_get_deletions. intros d.
  apply hoare_conseq with (P' := extends no_page_scan st0)
                          (Q' := extends no_page_scan st0); [| tauto | auto].
  destruct (d >=? max_removals cfg); [apply hoare_ret |].
  apply hoare_seq.
  { apply hoare_call; intros; apply extends_call; auto; reflexivity. }
  intros rows. apply hoare_seq; [| intros _; exact IH].
  intros st Hst. destruct (for_rows_pass fuel rows st) as (delta & Ht & Hd & _).
  apply (extends_trans no_page_scan no_scan st0 st);
    [apply no_scan_no_page_scan | exact Hst | exists delta; auto].
Qed.
End Pass.

(** C3 (as stated, refuted): in the scenario the run deletes row 1 and goes on
    to read rows 2 and 3 and to delete row 3 through the handles it fetched
    before the deletion, with no scan in between. *)
Lemma rows_are_not_rescanned_within_a_pass :
  rescans_after_each_deletion
    (trace (snd (run_on true false (scenario_cfg false 10 (Some 1)) 20 scenario))) = false
  /\ ev_call <$> take 8 (drop 9 (trace (snd (run_on true false
                                       (scenario_cfg false 10 (Some 1)) 20 scenario))))
     = [CReadRow 1%nat; CFocusRow 1%nat; CMoreButton 1%nat; CDeleteItem 1%nat;
        CReadRow 2%nat; CReadRow 3%nat; CFocusRow 3%nat; CMoreButton 3%nat].
Proof. split; vm_compute; reflexivity. Qed.

(** C3 (amended): within one pass the controller does not scan again.  The
    [for] over the rows of a section adds no page load and no lookup of
    sections or rows to the trace; the rows it reads are the first rows of the
    list fetched before the pass, in that order, and all of them when it ends
    normally with budget left; every row it focuses for deletion is one of the
    rows so read.  The [for] over the sections loads no page and looks the
    sections up no more. *)
Theorem pass_goes_on_with_fetched_rows {W} `{!WebDriver W}
    (cfg : UnscrobblerConfig) (fuel : nat) :
  (forall rows (st : State W), pass_spec cfg rows st (for_rows cfg fuel rows st))
  /\ (forall sections (st : State W),
        extends no_page_scan st (snd (for_sections cfg fuel sections st))).
Proof.
  split.
  - intros rows st. apply for_rows_pass.
  - intros sections st. apply (for_sections_pass cfg fuel sections st st), extends_refl.
Qed.

Lemma pass_goes_on_with_fetched_rows_witness :
  let cfg := scenario_cfg false 10 (Some 1) in
  let st := mk_state (fx_show 1 scenario) 0 [] [] in
  pass_spec cfg [1; 2; 3]%nat st
    (@for_rows Fixture (fixture_driver true false) cfg 20 [1; 2; 3]%nat st)
  /\ extends no_page_scan st
       (snd (@for_sections Fixture (fixture_driver true false) cfg 20 [0%nat] st)).
Proof.
  intros cfg st.
  destruct (@pass_goes_on_with_fetched_rows Fixture (fixture_driver true false) cfg 20)
    as [Hrows Hsections].
  split; [apply Hrows | apply Hsections].
Defined.

Example pass_reads_every_fetched_row :
  let cfg := scenario_cfg false 10 (Some 1) in
  let st := mk_state (fx_show 1 scenario) 0 [] [] in
  let r := @for_rows Fixture (fixture_driver true false) cfg 20 [1; 2; 3]%nat st in
  fst r = Val tt /\ deletions (snd r) = 2
  /\ ev_call <$> trace (snd r)
     = [CReadRow 1%nat; CFocusRow 1%nat; CMoreButton 1%nat; CDeleteItem 1%nat;
        CReadRow 2%nat;
        CReadRow 3%nat; CFocusRow 3%nat; CMoreButton 3%nat; CDeleteItem 3%nat].
Proof. repeat split; vm_compute; reflexivity. Qed.

Example one_deletion_is_followed_by_a_scan :
  rescans_after_each_deletion
    (trace (snd (run_on true false (scenario_cfg false 1 (Some 1)) 20 scenario))) = true.
Proof. vm_compute. reflexivity. Qed.

(** ** Retries *)

Definition is_submit (e : Event) : bool :=
  match ev_call e with CSubmit => true | _ => false end.

(** How many times the submit button was clicked. *)
Definition submit_clicks (t : list Event) : Z := Z.of_nat (length (List.filter is_submit t)).

Lemma submit_clicks_snoc t e :
  submit_clicks (t ++ [e]) = submit_clicks t + (if is_submit e then 1 else 0).
Proof.
  unfold submit_clicks. rewrite List.filter_app, length_app. simpl.
  destruct (is_submit e); simpl; lia.
Qed.

Section Retries.
Context {W : Type} `{!WebDriver W}.
Variable cfg : UnscrobblerConfig.

(** The world after [k] clicks on the submit button. *)
Fixpoint submit_world (k : nat) (w : W) : W :=
  match k with
  | O => w
  | S k' => submit_world k' (snd (click_submit w))
  end.

(** One round of the deletion retry: the two clicks of lines 208-212. *)
Definition delete_attempt (more : WebElement) (w : W) : result unit * W :=
  match click_more_button more w with
  | (Ok _, w') => click_delete_item more w'
  | (Err e, w') => (Err e, w')
  end.

(** The world after [k] rounds. *)
Fixpoint retry_world (more : WebElement) (k : nat) (w : W) : W :=
  match k with
  | O => w
  | S k' => retry_world more k' (snd (delete_attempt more w))
  end.

Definition clicks_at_most (n : Z) (st : State W) : Prop := submit_clicks (trace st) <= n.

Lemma clicks_other_call n st c ok w :
  c <> CSubmit -> clicks_at_most n st -> clicks_at_most n (after_call st c ok w).
Proof.
  unfold clicks_at_most. intros Hc H. simpl. rewrite submit_clicks_snoc.
  unfold is_submit. simpl. destruct c; try lia. congruence.
Qed.

Lemma login_loop_clicks fuel n :
  0 <= n < 12 ->
  hoare (clicks_at_most n) (login_loop fuel n) (clicks_at_most 12).
Proof.
  revert n. induction fuel as [| fuel IH]; intros n Hn; simpl.
  { intros st H. unfold clicks_at_most in *. simpl. lia. }
  apply hoare_bind with (R := clicks_at_most (n + 1)).
  - apply hoare_try, hoare_call. intros st ok w H. unfold clicks_at_most in *.
    simpl. rewrite submit_clicks_snoc. simpl. lia.
  - assert (Hret : forall b : bool,
              hoare (clicks_at_most (n + 1)) (mret b : M W bool) (clicks_at_most 12)).
    { intros b st H. unfold clicks_at_most in *. simpl. lia. }
    intros [[] | e]; [apply Hret |].
    destruct (n + 1 >=? 12) eqn:Hge; [apply Hret |].
    apply IH. rewrite Z.geb_leb, Z.leb_gt in Hge. lia.
  - unfold clicks_at_most. intros st H. lia.
Qed.

Lemma run_clicks fuel w : submit_clicks (trace (snd (run cfg fuel w))) <= 12.
Proof.
  unfold run, unscrobbler.
  apply (hoare_bind (clicks_at_most 0) (clicks_at_most 0) (clicks_at_most 12)).
  - apply hoare_call. intros. apply clicks_other_call; [discriminate | assumption].
  - intros _. apply hoare_bind with (R := clicks_at_most 12).
    + apply login_loop_clicks. lia.
    + intros [|]; [| apply hoare_ret].
      apply hoare_seq; [| intros _; apply hoare_ret].
      apply (page_loop_inv cfg (clicks_at_most 12) (clicks_at_most 12)); auto.
      * intros st c ok w' Hl _. apply clicks_other_call. destruct c; discriminate.
      * intros. apply clicks_other_call; [discriminate | assumption].
      * intros st c ok w' _ Hc. apply clicks_other_call. destruct c; discriminate.
    + auto.
  - unfold clicks_at_most. intros st H. lia.
  - unfold clicks_at_most, submit_clicks. simpl. lia.
Qed.

Lemma login_loop_gives_up (j : nat) : forall fuel n (st : State W),
  (1 <= j)%nat -> (j <= fuel)%nat -> n + Z.of_nat j = 12 ->
  (forall k, (k < j)%nat -> is_ok (fst (click_submit (submit_world k (world st)))) = false) ->
  fst (login_loop fuel n st) = Val false.
Proof.
  induction j as [| j IH]; intros fuel n st Hj Hfuel Hn Hfail; [lia |].
  destruct fuel as [| fuel]; [lia |]. simpl.
  pose proof (Hfail O ltac:(lia)) as H0. simpl in H0.
  unfold mbind, M_bind, try_, call.
  destruct (click_submit (world st)) as [[[] | e] w] eqn:Hclick; simpl in H0;
    [discriminate |]. simpl.
  destruct (n + 1 >=? 12) eqn:Hge; [reflexivity |].
  rewrite Z.geb_leb, Z.leb_gt in Hge.
  apply IH; try lia. intros k Hk. simpl.
  specialize (Hfail (S k) ltac:(lia)). simpl in Hfail. rewrite Hclick in Hfail.
  exact Hfail.
Qed.

Lemma run_gives_up fuel w :
  (12 <= fuel)%nat ->
  is_ok (fst (open_login (lastfm_username cfg) (lastfm_password cfg) w)) = true ->
  (forall k, (k < 12)%nat ->
     is_ok (fst (click_submit
              (submit_world k
                 (snd (open_login (lastfm_username cfg) (lastfm_password cfg) w))))) = false) ->
  fst (run cfg fuel w) = Val EXIT_ERROR.
Proof.
  intros Hfuel Hopen Hfail. unfold run, unscrobbler.
  unfold mbind at 1, M_bind at 1, call at 1. simpl.
  destruct (open_login (lastfm_username cfg) (lastfm_password cfg) w) as [[[] | e] w0];
    [| discriminate]. simpl.
  unfold mbind, M_bind.
  pose proof (login_loop_gives_up 12 fuel 0
                (mk_state w0 0 [] [mk_event COpenLogin true 0])
                ltac:(lia) Hfuel ltac:(lia) Hfail) as H.
  destruct (login_loop fuel 0 _) as [o st]. simpl in H. subst o. reflexivity.
Qed.

Lemma delete_retry_never_raises fuel more (st : State W) :
  fst (delete_retry cfg fuel more st) = Val tt
  \/ fst (delete_retry cfg fuel more st) = OutOfFuel.
Proof.
  revert st. induction fuel as [| fuel IH]; intros st; simpl; [right; reflexivity |].
  rewrite !bind_run. unfold try_.
  match goal with
  | |- context [match ?m st with _ => _ end] => destruct (m st) as [[[] | e |] st']
  end; simpl.
  - left. reflexivity.
  - apply IH.
  - right. reflexivity.
Qed.

Lemma delete_round more (st : State W) :
  exists st',
    (call (CMoreButton more) (click_more_button more);;
     call (CDeleteItem more) (click_delete_item more)) st
    = (match fst (delete_attempt more (world st)) with
       | Ok _ => Val tt
       | Err e => Raise e
       end, st')
    /\ world st' = snd (delete_attempt more (world st)).
Proof.
  unfold mbind, M_bind, call, delete_attempt.
  destruct (click_more_button more (world st)) as [[[] | e] w1]; simpl.
  - destruct (click_delete_item more w1) as [[[] | e] w2]; simpl; eauto.
  - eauto.
Qed.

Lemma delete_retry_keeps_trying (n : nat) : forall more (st : State W),
  dry_run cfg = false ->
  (forall k, (k < n)%nat ->
     is_ok (fst (delete_attempt more (retry_world more k (world st)))) = false) ->
  fst (delete_retry cfg n more st) = OutOfFuel
  /\ (is_ok (fst (delete_attempt more (retry_world more n (world st)))) = true ->
      fst (delete_retry cfg (S n) more st) = Val tt).
Proof.
  induction n as [| n IH]; intros more st Hreal Hfail.
  - split; [reflexivity |]. intros Hok. simpl in *.
    unfold mbind at 1, M_bind at 1, try_. rewrite Hreal. simpl.
    destruct (delete_round more st) as (st' & -> & Hw).
    destruct (fst (delete_attempt more (world st))); [reflexivity | discriminate].
  - pose proof (Hfail O ltac:(lia)) as H0. simpl in H0.
    assert (Hstep : forall fuel,
              delete_retry cfg (S fuel) more st
              = let st' := snd ((call (CMoreButton more) (click_more_button more);;
                                 call (CDeleteItem more) (click_delete_item more)) st) in
                delete_retry cfg fuel more st').
    { intros fuel. simpl. unfold mbind at 1, M_bind at 1, try_. rewrite Hreal. simpl.
      destruct (delete_round more st) as (st' & -> & Hw).
      destruct (fst (delete_attempt more (world st))); [discriminate | reflexivity]. }
    rewrite !Hstep. cbv zeta.
    destruct (delete_round more st) as (st' & Hrun & Hw). rewrite Hrun. simpl snd.
    assert (Hfail' : forall k, (k < n)%nat ->
              is_ok (fst (delete_attempt more (retry_world more k (world st')))) = false).
    { intros k Hk. rewrite Hw. apply (Hfail (S k)). lia. }
    destruct (IH more st' Hreal Hfail') as [Hout Hgo]. split; [exact Hout |].
    intros Hok. apply Hgo. rewrite Hw. exact Hok.
Qed.
End Retries.

(** C8: the submit button is clicked at most 12 times in any run, and when the
    first 12 clicks all raise the run returns [EXIT_ERROR]; the deletion retry
    never raises and never returns an error, and after any number [n] of
    failed rounds it is still trying: cut off with [n] rounds of fuel, and
    through with one more when round [n] succeeds. *)
Theorem retries_are_capped_only_at_login {W} `{!WebDriver W} (cfg : UnscrobblerConfig) :
  (forall fuel (w : W), submit_clicks (trace (snd (run cfg fuel w))) <= 12)
  /\ (forall fuel (w : W),
        (12 <= fuel)%nat ->
        is_ok (fst (open_login (lastfm_username cfg) (lastfm_password cfg) w)) = true ->
        (forall k, (k < 12)%nat ->
           is_ok (fst (click_submit
                    (submit_world k
                       (snd (open_login (lastfm_username cfg) (lastfm_password cfg) w)))))
           = false) ->
        fst (run cfg fuel w) = Val EXIT_ERROR)
  /\ (forall fuel more (st : State W),
        fst (delete_retry cfg fuel more st) = Val tt
        \/ fst (delete_retry cfg fuel more st) = OutOfFuel)
  /\ (forall n more (st : State W),
        dry_run cfg = false ->
        (forall k, (k < n)%nat ->
           is_ok (fst (delete_attempt more (retry_world more k (world st)))) = false) ->
        fst (delete_retry cfg n more st) = OutOfFuel
        /\ (is_ok (fst (delete_attempt more (retry_world more n (world st)))) = true ->
            fst (delete_retry cfg (S n) more st) = Val tt)).
Proof.
  repeat split.
  - apply run_clicks.
  - apply run_gives_up; assumption.
  - apply delete_retry_never_raises.
  - apply delete_retry_keeps_trying; assumption.
  - apply delete_retry_keeps_trying; assumption.
Qed.

(** The scenario behind a login that fails 12 times, and on a page whose more
    button fails 3 times. *)
Definition locked_out : Fixture := mk_fixture [scenario_page] 0 12 0.
Definition flaky_page : State Fixture := mk_state (mk_fixture [scenario_page] 1 0 3) 0 [] [].

Lemma retries_are_capped_only_at_login_witness :
  let cfg := scenario_cfg false 10 (Some 1) in
  fst (run_on true true cfg 20 locked_out) = Val EXIT_ERROR
  /\ fst (@delete_retry Fixture (fixture_driver true true) cfg 3 1%nat flaky_page) = OutOfFuel
  /\ fst (@delete_retry Fixture (fixture_driver true true) cfg 4 1%nat flaky_page) = Val tt.
Proof.
  intros cfg.
  destruct (@retries_are_capped_only_at_login Fixture (fixture_driver true true) cfg)
    as (_ & Hgive & _ & Hkeep).
  split.
  - apply Hgive; [lia | reflexivity |].
    intros k Hk. do 12 (destruct k as [| k]; [reflexivity |]). lia.
  - destruct (Hkeep 3%nat 1%nat flaky_page) as [Hout Hgo]; [reflexivity | |].
    + intros k Hk. do 3 (destruct k as [| k]; [reflexivity |]). lia.
    + split; [exact Hout | apply Hgo; reflexivity].
Defined.

Example twelve_failed_submits :
  let r := run_on true true (scenario_cfg false 10 (Some 1)) 20 locked_out in
  fst r = Val EXIT_ERROR /\ submit_clicks (trace (snd r)) = 12
  /\ ev_ok <$> trace (snd r)
     = [true; false; false; false; false; false; false; false; false; false;
        false; false; false].
Proof. repeat split; vm_compute; reflexivity. Qed.

Example eleven_failed_submits :
  let r := run_on true true (scenario_cfg false 10 (Some 1)) 20
             (mk_fixture [scenario_page] 0 11 0) in
  fst r = Val EXIT_SUCCESS /\ submit_clicks (trace (snd r)) = 12 /\ deletions (snd r) = 2.
Proof. repeat split; vm_compute; reflexivity. Qed.

(** * Further properties *)

(** ** The predicate, beyond the two filters together *)

(** X1: with no year and without both hours, the hour and year filters do
    nothing: a record is deleted exactly when its artist or its title is
    listed.  One hour alone counts as no hour range. *)
Theorem should_delete_without_filters cfg track artist ts :
  year cfg = None -> first_hr cfg = None \/ last_hr cfg = None ->
  should_delete cfg track artist ts = true
  <-> (artist ∈ delete_artists cfg \/ track ∈ delete_titles cfg).
Proof.
  intros Hy Hh. split.
  - intros Hsd.
    destruct (decide (artist ∈ delete_artists cfg)) as [Ha | Ha]; [left; exact Ha |].
    destruct (decide (track ∈ delete_titles cfg)) as [Ht | Ht]; [right; exact Ht |].
    rewrite (should_delete_no_match _ _ _ _ Ha Ht) in Hsd. discriminate.
  - intros Hm. rewrite (should_delete_match _ _ _ _ Hm), Hy. simpl.
    destruct Hh as [-> | Hl]; [reflexivity |]. rewrite Hl.
    destruct (first_hr cfg); reflexivity.
Qed.

(** A configuration with the title list only and the first hour alone. *)
Definition one_hour_cfg : UnscrobblerConfig :=
  mk_config "user" "pass" true ∅ {[ "T" ]} 10 true None (Some 22) None
    (Some 1) (Some 20).

Lemma title_T_listed :
  "A" ∈ delete_artists one_hour_cfg \/ "T" ∈ delete_titles one_hour_cfg.
Proof. right. simpl. set_solver. Qed.

Lemma should_delete_without_filters_witness :
  should_delete one_hour_cfg "T" "A" (mk_datetime 2021 3) = true
  <-> ("A" ∈ delete_artists one_hour_cfg \/ "T" ∈ delete_titles one_hour_cfg).
Proof.
  apply (should_delete_without_filters one_hour_cfg "T" "A" (mk_datetime 2021 3));
    [reflexivity | right; reflexivity].
Defined.

Lemma should_delete_listed cfg track artist ts :
  should_delete cfg track artist ts = true ->
  artist ∈ delete_artists cfg \/ track ∈ delete_titles cfg.
Proof.
  intros Hsd.
  destruct (decide (artist ∈ delete_artists cfg)) as [Ha | Ha]; [left; exact Ha |].
  destruct (decide (track ∈ delete_titles cfg)) as [Ht | Ht]; [right; exact Ht |].
  rewrite (should_delete_no_match _ _ _ _ Ha Ht) in Hsd. discriminate.
Qed.

(** X2: a record is deleted only if its artist or its title is listed and,
    when a year is configured, only if it is of that year. *)
Theorem should_delete_sound cfg track artist ts :
  should_delete cfg track artist ts = true ->
  (artist ∈ delete_artists cfg \/ track ∈ delete_titles cfg)
  /\ (forall y, year cfg = Some y -> dt_year ts = y).
Proof.
  intros Hsd. pose proof (should_delete_listed _ _ _ _ Hsd) as Hm.
  split; [exact Hm |]. intros y Hy.
  rewrite (should_delete_match _ _ _ _ Hm), Hy in Hsd. simpl in Hsd.
  apply Z.eqb_eq, Hsd.
Qed.

Lemma should_delete_sound_witness :
  ("A" ∈ delete_artists precedence_cfg \/ "T" ∈ delete_titles precedence_cfg)
  /\ (forall y, year precedence_cfg = Some y -> dt_year (mk_datetime 2019 12) = y).
Proof.
  apply (should_delete_sound precedence_cfg "T" "A" (mk_datetime 2019 12)).
  vm_compute. reflexivity.
Defined.

(** X3: longer lists never spare a record: with the year and the hours the
    same, a record deleted under smaller sets is deleted under larger ones. *)
Theorem should_delete_monotone cfg cfg' track artist ts :
  delete_artists cfg ⊆ delete_artists cfg' ->
  delete_titles cfg ⊆ delete_titles cfg' ->
  year cfg' = year cfg -> first_hr cfg' = first_hr cfg -> last_hr cfg' = last_hr cfg ->
  should_delete cfg track artist ts = true ->
  should_delete cfg' track artist ts = true.
Proof.
  intros Ha Ht Hy Hf Hl Hsd.
  pose proof (should_delete_listed _ _ _ _ Hsd) as Hm.
  assert (Hm' : artist ∈ delete_artists cfg' \/ track ∈ delete_titles cfg').
  { destruct Hm as [H | H]; [left; apply Ha, H | right; apply Ht, H]. }
  rewrite (should_delete_match _ _ _ _ Hm) in Hsd.
  rewrite (should_delete_match _ _ _ _ Hm'), Hy, Hf, Hl. exact Hsd.
Qed.

(** The midnight configuration with a longer artist list and a title list. *)
Definition longer_lists_cfg : UnscrobblerConfig :=
  mk_config "user" "pass" true {[ "A"; "B" ]} {[ "T" ]} 10 true None (Some 22) (Some 2)
    (Some 1) (Some 20).

Lemma should_delete_monotone_witness :
  should_delete longer_lists_cfg "T1" "A" (mk_datetime 2021 23) = true.
Proof.
  apply (should_delete_monotone midnight_cfg longer_lists_cfg "T1" "A" (mk_datetime 2021 23));
    try reflexivity; simpl; try set_solver.
Defined.

(** ** The command line, check by check *)

Lemma hour_in_range_iff (o : option Z) :
  hour_out_of_range o = false <-> (forall h, o = Some h -> 0 <= h <= 23).
Proof.
  unfold hour_out_of_range. destruct o as [h |].
  - rewrite andb_false_iff, negb_false_iff, orb_false_iff, Z.eqb_eq, Z.ltb_ge,
      Z.gtb_ltb, Z.ltb_ge.
    split.
    + intros H h' [= <-]. lia.
    + intros H. specialize (H h eq_refl). lia.
  - split; [intros _ h [=] | reflexivity].
Qed.

Lemma check_files_passes args :
  check_files args = None
  <-> truthy_str (arg_artists_file args) = true \/ truthy_str (arg_titles_file args) = true.
Proof.
  unfold check_files.
  destruct (truthy_str (arg_artists_file args)), (truthy_str (arg_titles_file args));
    simpl; split; auto; try discriminate. intros [[=] | [=]].
Qed.

Lemma check_year_passes args :
  check_year args = None <-> (forall y, arg_year args = Some y -> 1970 <= y <= 2999).
Proof.
  unfold check_year. destruct (arg_year args) as [y |].
  - destruct (Z.ltb_spec y 1970) as [Hlo | Hlo]; simpl.
    + split; [discriminate | intros H; specialize (H y eq_refl); lia].
    + destruct (Z.gtb_spec y 2999) as [Hhi | Hhi]; simpl.
      * split; [discriminate | intros H; specialize (H y eq_refl); lia].
      * split; [intros _ y' [= <-]; lia | reflexivity].
  - split; [intros _ y [=] | reflexivity].
Qed.

Lemma check_hours_together_passes args :
  check_hours_together args = None
  <-> truthy (arg_first_hr args) = truthy (arg_last_hr args).
Proof.
  unfold check_hours_together.
  destruct (truthy (arg_first_hr args)), (truthy (arg_last_hr args)); simpl;
    split; auto; discriminate.
Qed.

Lemma check_hours_range_passes args :
  check_hours_range args = None
  <-> (forall h, arg_first_hr args = Some h -> 0 <= h <= 23)
      /\ (forall h, arg_last_hr args = Some h -> 0 <= h <= 23).
Proof.
  rewrite <- !hour_in_range_iff. unfold check_hours_range.
  destruct (hour_out_of_range (arg_first_hr args)),
    (hour_out_of_range (arg_last_hr args)); simpl; split; auto; try discriminate;
    intros [H1 H2]; discriminate.
Qed.

Lemma check_max_removals_passes args :
  check_max_removals args = None <-> 0 < arg_max_removals args.
Proof.
  unfold check_max_removals.
  destruct (Z.leb_spec (arg_max_removals args) 0) as [Hle | Hgt];
    split; auto; try discriminate; lia.
Qed.

Lemma validate_passes_all args :
  validate args = None
  <-> check_files args = None /\ check_year args = None
      /\ check_hours_together args = None /\ check_hours_range args = None
      /\ check_max_removals args = None.
Proof.
  unfold validate.
  destruct (check_files args), (check_year args), (check_hours_together args),
    (check_hours_range args), (check_max_removals args);
    split; try discriminate; auto; intros (H1 & H2 & H3 & H4 & H5); discriminate.
Qed.

(** X4: the arguments pass the five checks exactly when a list file is named,
    the year (if any) is from 1970 to 2999, the two hours are both set and not
    zero or both unset or zero, each hour (if any) is from 0 to 23, and the
    budget is positive. *)
Theorem validate_passes_iff args :
  validate args = None
  <-> (truthy_str (arg_artists_file args) = true \/ truthy_str (arg_titles_file args) = true)
      /\ (forall y, arg_year args = Some y -> 1970 <= y <= 2999)
      /\ truthy (arg_first_hr args) = truthy (arg_last_hr args)
      /\ ((forall h, arg_first_hr args = Some h -> 0 <= h <= 23)
          /\ (forall h, arg_last_hr args = Some h -> 0 <= h <= 23))
      /\ 0 < arg_max_removals args.
Proof.
  rewrite validate_passes_all, check_files_passes, check_year_passes,
    check_hours_together_passes, check_hours_range_passes, check_max_removals_passes.
  reflexivity.
Qed.

(** X5: an hour below 0 or above 23, for either flag and whatever else is
    given, ends the script with a non-zero status and one line on stderr; the
    core is not called. *)
Theorem hour_out_of_range_is_rejected args env h :
  arg_first_hr args = Some h \/ arg_last_hr args = Some h ->
  h < 0 \/ h > 23 ->
  exists code msg, main args env = SysExit code [msg] /\ code <> 0.
Proof.
  intros Hh Hout.
  destruct (validate args) as [msg |] eqn:Hv.
  - exists EXIT_ERROR, msg. split; [apply validate_exits, Hv | discriminate].
  - apply validate_passes_all in Hv. destruct Hv as (_ & _ & _ & Hr & _).
    apply check_hours_range_passes in Hr. destruct Hr as [H1 H2].
    destruct Hh as [Hh | Hh]; [specialize (H1 h Hh) | specialize (H2 h Hh)]; lia.
Qed.

Lemma hour_out_of_range_is_rejected_witness :
  exists code msg,
    main (demo_args None (Some 24) (Some 5)) demo_env = SysExit code [msg] /\ code <> 0.
Proof.
  apply (hour_out_of_range_is_rejected (demo_args None (Some 24) (Some 5)) demo_env 24);
    [left; reflexivity | right; lia].
Defined.

Example hours_24_and_5 :
  main (demo_args None (Some 24) (Some 5)) demo_env
  = SysExit 1 ["--first-hr and --last-hr must be between 0-23 (inclusive)."].
Proof. vm_compute. reflexivity. Qed.

Example hour_minus_1_alone :
  main (demo_args None None (Some (-1))) demo_env
  = SysExit 1 ["--first-hr and --last-hr must be used together."].
Proof. vm_compute. reflexivity. Qed.

Lemma main_core_inversion args env cfg :
  main args env = Core cfg ->
  validate args = None
  /\ max_removals cfg = arg_max_removals args /\ 0 < max_removals cfg
  /\ dry_run cfg = negb (arg_no_dry_run args)
  /\ year cfg = arg_year args
  /\ first_hr cfg = arg_first_hr args /\ last_hr cfg = arg_last_hr args
  /\ start_page cfg = Some (arg_start_page args)
  /\ max_page cfg = Some (arg_max_page args)
  /\ log_file cfg = truthy_str (arg_log_dir args)
  /\ read_set env (arg_artists_file args) = Some (delete_artists cfg)
  /\ read_set env (arg_titles_file args) = Some (delete_titles cfg)
  /\ lastfm_username cfg <> "" /\ lastfm_password cfg <> "".
Proof.
  unfold main. destruct (validate args) as [msg |] eqn:Hv; [discriminate |].
  pose proof (proj1 (validate_passes_all args) Hv) as (_ & _ & _ & _ & Hmax).
  apply check_max_removals_passes in Hmax.
  destruct (read_set env (arg_artists_file args)) as [A |]; [| discriminate].
  destruct (read_set env (arg_titles_file args)) as [T |]; [| discriminate].
  destruct (truthy_str (env_getenv env "LASTFM_USERNAME")) eqn:Hu; [| discriminate].
  destruct (truthy_str (env_getenv env "LASTFM_PASSWORD")) eqn:Hp; [| discriminate].
  simpl.
  assert (Hlog : forall r b, open_logs args env = (r, b) -> b = truthy_str (arg_log_dir args)).
  { unfold open_logs. intros r b.
    destruct (truthy_str (arg_log_dir args)); [| intros [= _ <-]; reflexivity].
    destruct (env_open_x env _ _); intros [= _ <-]; reflexivity. }
  destruct (open_logs args env) as [r b] eqn:Ho.
  pose proof (Hlog r b eq_refl) as Hb. clear Hlog Ho.
  destruct r; try discriminate.
  intros [= <-]. simpl. rewrite Hb.
  repeat split; auto.
  - destruct (env_getenv env "LASTFM_USERNAME") as [u |]; [| discriminate].
    simpl in *. intros ->. discriminate.
  - destruct (env_getenv env "LASTFM_PASSWORD") as [u |]; [| discriminate].
    simpl in *. intros ->. discriminate.
Qed.

(** X6: when the script calls the core, the arguments have passed the five
    checks and the configuration carries them: the positive budget, the year
    and the hours as given, dry-run unless [--no-dry-run], the pages, a log
    file exactly when a log directory is named, and both credentials set. *)
Theorem core_config_is_validated args env cfg :
  main args env = Core cfg ->
  validate args = None
  /\ max_removals cfg = arg_max_removals args /\ 0 < max_removals cfg
  /\ dry_run cfg = negb (arg_no_dry_run args)
  /\ year cfg = arg_year args
  /\ first_hr cfg = arg_first_hr args /\ last_hr cfg = arg_last_hr args
  /\ start_page cfg = Some (arg_start_page args)
  /\ max_page cfg = Some (arg_max_page args)
  /\ log_file cfg = truthy_str (arg_log_dir args)
  /\ read_set env (arg_artists_file args) = Some (delete_artists cfg)
  /\ read_set env (arg_titles_file args) = Some (delete_titles cfg)
  /\ lastfm_username cfg <> "" /\ lastfm_password cfg <> "".
Proof. apply main_core_inversion. Qed.

(** What the script passes to the core for a year of 2021 and no hours. *)
Definition demo_core_cfg : UnscrobblerConfig :=
  mk_config "secret" "secret" true ∅ ∅ 100 false (Some 2021) None None
    (Some 1) (Some 20).

Lemma core_config_is_validated_witness :
  validate (demo_args (Some 2021) None None) = None
  /\ max_removals demo_core_cfg = 100 /\ 0 < max_removals demo_core_cfg
  /\ dry_run demo_core_cfg = true
  /\ year demo_core_cfg = Some 2021
  /\ first_hr demo_core_cfg = None /\ last_hr demo_core_cfg = None
  /\ start_page demo_core_cfg = Some 1
  /\ max_page demo_core_cfg = Some 20
  /\ log_file demo_core_cfg = false
  /\ read_set demo_env (Some "artists.txt") = Some (delete_artists demo_core_cfg)
  /\ read_set demo_env None = Some (delete_titles demo_core_cfg)
  /\ lastfm_username demo_core_cfg <> "" /\ lastfm_password demo_core_cfg <> "".
Proof.
  apply (core_config_is_validated (demo_args (Some 2021) None None) demo_env demo_core_cfg).
  reflexivity.
Defined.

(** ** Reading the list files *)

Definition newline : Ascii.ascii := Ascii.ascii_of_nat 10.

Lemma rstrip_newline_cons c s :
  rstrip_newline (String c s)
  = if String.eqb (rstrip_newline s) "" && Ascii.eqb c newline
    then EmptyString else String c (rstrip_newline s).
Proof. reflexivity. Qed.

Lemma rstrip_newline_app_newline s :
  rstrip_newline (s +:+ String newline "") = rstrip_newline s.
Proof.
  induction s as [| c s IH].
  - reflexivity.
  - change (String c s +:+ String newline "") with (String c (s +:+ String newline "")).
    rewrite !rstrip_newline_cons, IH. reflexivity.
Qed.

Lemma rstrip_newline_no_trailing s t : rstrip_newline s <> t +:+ String newline "".
Proof.
  revert t. induction s as [| c s IH]; intros t.
  - destruct t; discriminate.
  - rewrite rstrip_newline_cons.
    destruct (String.eqb (rstrip_newline s) "") eqn:Hr;
      destruct (Ascii.eqb c newline) eqn:Hc; simpl.
    + destruct t; discriminate.
    + destruct t as [| c' t]; simpl.
      * intros [= -> _]. rewrite Ascii.eqb_refl in Hc. discriminate.
      * intros [= _ H]. apply (IH _ H).
    + destruct t as [| c' t]; simpl.
      * intros [= _ H]. rewrite H in Hr. discriminate.
      * intros [= _ H]. apply (IH _ H).
    + destruct t as [| c' t]; simpl.
      * intros [= _ H]. rewrite H in Hr. discriminate.
      * intros [= _ H]. apply (IH _ H).
Qed.

Lemma rstrip_newline_unchanged s :
  (forall t, s <> t +:+ String newline "") -> rstrip_newline s = s.
Proof.
  induction s as [| c s IH]; intros Hs; [reflexivity |].
  rewrite rstrip_newline_cons.
  destruct s as [| c' s'].
  - simpl. destruct (Ascii.eqb c newline) eqn:Hc; [| reflexivity].
    apply Ascii.eqb_eq in Hc. subst c. exfalso. apply (Hs ""). reflexivity.
  - rewrite IH.
    + reflexivity.
    + intros t Ht. apply (Hs (String c t)). simpl. rewrite Ht. reflexivity.
Qed.

(** X7: stripping a line takes every trailing newline away and nothing else:
    the result never ends in a newline, a line that does not end in one is
    unchanged, and one more newline at the end makes no difference. *)
Theorem rstrip_newline_strips_trailing_newlines s :
  (forall t, rstrip_newline s <> t +:+ String newline "")
  /\ ((forall t, s <> t +:+ String newline "") -> rstrip_newline s = s)
  /\ rstrip_newline (s +:+ String newline "") = rstrip_newline s.
Proof.
  split; [apply rstrip_newline_no_trailing |].
  split; [apply rstrip_newline_unchanged | apply rstrip_newline_app_newline].
Qed.

Lemma no_trailing_newline_A t : "A" <> t +:+ String newline "".
Proof.
  destruct t as [| c t]; simpl; [discriminate |].
  intros [= _ H]. destruct t; discriminate.
Qed.

Lemma rstrip_newline_strips_trailing_newlines_witness :
  (forall t, rstrip_newline "A" <> t +:+ String newline "")
  /\ rstrip_newline "A" = "A"
  /\ rstrip_newline ("A" +:+ String newline "") = rstrip_newline "A".
Proof.
  destruct (rstrip_newline_strips_trailing_newlines "A") as (H1 & H2 & H3).
  split; [exact H1 |]. split; [apply H2, no_trailing_newline_A | exact H3].
Defined.

(** X8: a list file that is not named, or named by the empty string, gives the
    empty set without a read; a named file gives the set of its lines, each
    stripped of its trailing newlines; a file that cannot be opened gives no
    set, and the script ends on the uncaught exception. *)
Theorem read_set_is_the_stripped_lines env file :
  (truthy_str file = false -> read_set env file = Some ∅)
  /\ (forall f lines,
        file = Some f -> f <> "" -> env_lines env f = Some lines ->
        exists names, read_set env file = Some names
          /\ forall x, x ∈ names <-> exists line, line ∈ lines /\ rstrip_newline line = x)
  /\ (forall f, file = Some f -> f <> "" -> env_lines env f = None ->
        read_set env file = None).
Proof.
  assert (Htruthy : forall f, f <> "" -> truthy_str (Some f) = true).
  { intros f Hf. simpl. destruct (String.eqb_spec f ""); [contradiction | reflexivity]. }
  repeat split.
  - intros H. unfold read_set. rewrite H. reflexivity.
  - intros f lines -> Hf Hlines. unfold read_set. rewrite (Htruthy f Hf). simpl.
    rewrite Hlines. simpl. eexists. split; [reflexivity |].
    intros x. rewrite elem_of_list_to_set, list_elem_of_fmap.
    split; intros (line & H1 & H2); exists line; auto.
  - intros f -> Hf Hnone. unfold read_set. rewrite (Htruthy f Hf). simpl.
    rewrite Hnone. reflexivity.
Qed.

(** An environment whose artist file has two lines, the second without a
    newline at its end. *)
Definition two_line_env : Env :=
  mk_env (fun _ => Some ["A" +:+ String newline ""; "B"])
    (fun _ => Some "secret") "20240101-000000" (fun _ _ => Opened).

Lemma read_set_is_the_stripped_lines_witness :
  read_set two_line_env None = Some ∅
  /\ exists names, read_set two_line_env (Some "artists.txt") = Some names
       /\ forall x, x ∈ names
            <-> exists line, line ∈ ["A" +:+ String newline ""; "B"]
                  /\ rstrip_newline line = x.
Proof.
  split.
  - apply (read_set_is_the_stripped_lines two_line_env None). reflexivity.
  - destruct (read_set_is_the_stripped_lines two_line_env (Some "artists.txt"))
      as (_ & Hnamed & _).
    apply (Hnamed "artists.txt"); [reflexivity | discriminate | reflexivity].
Defined.

Example two_lines_two_artists :
  read_set two_line_env (Some "artists.txt") = Some {[ "A"; "B" ]}.
Proof. vm_compute. reflexivity. Qed.

(** ** What deleting one row does *)

(** A deletion click that went through. *)
Definition is_confirmed (e : Event) : bool :=
  match ev_call e with
  | CDeleteItem _ => ev_ok e
  | _ => false
  end.

(** How many deletion clicks went through. *)
Definition confirmed_clicks (t : list Event) : Z :=
  Z.of_nat (length (List.filter is_confirmed t)).

Lemma confirmed_clicks_app t1 t2 :
  confirmed_clicks (t1 ++ t2) = confirmed_clicks t1 + confirmed_clicks t2.
Proof. unfold confirmed_clicks. rewrite List.filter_app, length_app. lia. Qed.

Lemma confirmed_clicks_nonneg t : 0 <= confirmed_clicks t.
Proof. unfold confirmed_clicks. lia. Qed.

Section RowEffect.
Context {W : Type} `{!WebDriver W}.
Variable cfg : UnscrobblerConfig.

Lemma call_run {A} (c : Call) (op : W -> result A * W) (st : State W) :
  call c op st
  = (match fst (op (world st)) with Ok a => Val a | Err e => Raise e end,
     after_call st c (is_ok (fst (op (world st)))) (snd (op (world st)))).
Proof. unfold call. destruct (op (world st)) as [[a | e] w]; reflexivity. Qed.

(** What the deletion retry does, by the way it ends: it never raises; it
    leaves the counter and the log alone; when it returns in a real run its
    last call is a deletion click that went through, the only one. *)
Definition retry_effect (more : WebElement) (st : State W)
    (r : Outcome unit * State W) : Prop :=
  deletions (snd r) = deletions st /\ log_lines (snd r) = log_lines st
  /\ exists delta,
       trace (snd r) = trace st ++ delta
       /\ Forall (fun e => is_deletion_call (ev_call e) = true) delta
       /\ match fst r with
          | Val _ =>
              if dry_run cfg then delta = []
              else exists before,
                  delta = before ++ [mk_event (CDeleteItem more) true (deletions st)]
                  /\ confirmed_clicks before = 0
          | Raise _ => False
          | OutOfFuel => confirmed_clicks delta = 0
          end.

Lemma delete_retry_effect fuel more st :
  retry_effect more st (delete_retry cfg fuel more st).
Proof.
  revert st. induction fuel as [| fuel IH]; intros st.
  { simpl. repeat split. exists []. rewrite app_nil_r. repeat split. constructor. }
  simpl. rewrite bind_run. unfold try_.
  destruct (dry_run cfg) eqn:Hdry; cbn [negb].
  { unfold retry_effect. simpl. rewrite Hdry. repeat split.
    exists []. rewrite app_nil_r. repeat split. constructor. }
  rewrite bind_run.
  assert (Hround : forall (st1 : State W) d1,
            deletions st1 = deletions st -> log_lines st1 = log_lines st ->
            trace st1 = trace st ++ d1 ->
            Forall (fun e => is_deletion_call (ev_call e) = true) d1 ->
            confirmed_clicks d1 = 0 ->
            retry_effect more st (delete_retry cfg fuel more st1)).
  { intros st1 d1 Hd Hl Ht Hcalls Hnone.
    destruct (IH st1) as (Hd' & Hl' & delta & Ht' & Hcalls' & Hend).
    unfold retry_effect. rewrite Hd', Hl', Hd, Hl. repeat split.
    exists (d1 ++ delta). rewrite Ht', Ht, app_assoc. repeat split.
    - apply Forall_app. split; assumption.
    - destruct (fst (delete_retry cfg fuel more st1)); [| exact Hend |].
      + rewrite Hdry in *. destruct Hend as (before & -> & Hbefore).
        exists (d1 ++ before). rewrite app_assoc, Hd. split; [reflexivity |].
        rewrite confirmed_clicks_app. lia.
      + rewrite confirmed_clicks_app. lia. }
  rewrite call_run.
  destruct (click_more_button more (world st)) as [[[] | e] w1]; cbn [fst snd is_ok].
  - rewrite call_run. cbn [fst snd is_ok after_call world].
    destruct (click_delete_item more w1) as [[[] | e] w2]; cbn [fst snd is_ok].
    + unfold retry_effect. simpl. rewrite Hdry. repeat split.
      exists ([mk_event (CMoreButton more) true (deletions st)]
              ++ [mk_event (CDeleteItem more) true (deletions st)]).
      rewrite app_assoc. repeat split.
      * repeat constructor.
      * exists [mk_event (CMoreButton more) true (deletions st)]. split; reflexivity.
    + eapply (Hround _ [mk_event (CMoreButton more) true (deletions st);
                        mk_event (CDeleteItem more) false (deletions st)]);
        simpl; try reflexivity.
      * rewrite <- app_assoc. reflexivity.
      * repeat constructor.
  - eapply (Hround _ [mk_event (CMoreButton more) false (deletions st)]);
      simpl; try reflexivity. repeat constructor.
Qed.

(** What deleting one row does, by the way it ends.  When it returns, the
    counter has gone up by one and the log, if there is one, by the entry of
    the row, and in a real run exactly one deletion click went through;
    otherwise the counter and the log are as before and no click went
    through. *)
Definition row_effect (row : WebElement) (entry : LogEntry) (st : State W)
    (r : Outcome unit * State W) : Prop :=
  exists delta,
    trace (snd r) = trace st ++ delta
    /\ Forall (acts_on row) delta
    /\ match fst r with
       | Val _ =>
           deletions (snd r) = deletions st + 1
           /\ log_lines (snd r) = log_lines st ++ (if log_file cfg then [entry] else [])
           /\ confirmed_clicks delta = (if dry_run cfg then 0 else 1)
       | _ =>
           deletions (snd r) = deletions st /\ log_lines (snd r) = log_lines st
           /\ confirmed_clicks delta = 0
       end.

Lemma delete_row_effect fuel row txt ts st :
  row_effect row
    (mk_log_entry (track_name txt) (artist_name txt) (timestamp_string txt) ts)
    st (delete_row cfg fuel row txt ts st).
Proof.
  unfold delete_row. rewrite bind_run, call_run.
  destruct (focus_row row (timestamp txt) (world st)) as [[more | e] w1];
    cbn [fst snd is_ok].
  2: { exists [mk_event (CFocusRow row) false (deletions st)]. simpl.
       repeat split. constructor; [reflexivity | constructor]. }
  set (ev := mk_event (CFocusRow row) true (deletions st)).
  rewrite bind_run.
  match goal with
  | |- row_effect _ _ _ (match ?x with _ => _ end) =>
      pose proof (delete_retry_effect fuel more (after_call st (CFocusRow row) true w1)
                  : retry_effect more _ x) as Heff;
      destruct x as [o st2]
  end.
  destruct Heff as (Hd & Hl & delta & Ht & Hcalls & Hend).
  cbn [fst snd after_call trace deletions log_lines] in *.
  assert (Hacts : Forall (acts_on row) (ev :: delta)).
  { constructor; [reflexivity |]. eapply Forall_impl; [exact Hcalls |].
    intros e He. simpl in He. unfold acts_on.
    destruct (ev_call e); try discriminate; exact I. }
  assert (Hcount : confirmed_clicks (ev :: delta) = confirmed_clicks delta).
  { change (ev :: delta) with ([ev] ++ delta). rewrite confirmed_clicks_app. reflexivity. }
  destruct o as [[] | e |].
  - rewrite bind_run. unfold _unscrobbler_log_deleted_item, incr_deletions.
    exists (ev :: delta). rewrite Hcount.
    assert (Hclicks : confirmed_clicks delta = (if dry_run cfg then 0 else 1)).
    { destruct (dry_run cfg); [subst delta; reflexivity |].
      destruct Hend as (before & -> & Hb). rewrite confirmed_clicks_app, Hb. reflexivity. }
    destruct (log_file cfg); cbn [negb fst snd trace deletions log_lines];
      rewrite Ht, Hd, Hl, <- app_assoc; repeat split; auto.
    rewrite app_nil_r. reflexivity.
  - contradiction.
  - exists (ev :: delta). cbn [fst snd].
    rewrite Hcount, Ht, Hd, Hl, <- app_assoc. repeat split; auto.
Qed.
End RowEffect.

(** The calls that only look at the page. *)
Definition is_read_call (c : Call) : bool :=
  match c with
  | CWaitLibrary | CFindSections | CFindRows _ | CReadRow _ | CFindNext | CHref _ => true
  | _ => false
  end.

(** ** A second invariant rule, by kind of call

    [P] is kept by the login calls, by the calls that only look at the page,
    by the load of a library page whose number is in [reach], by the load of
    a next button's address, and by the deletion of one matching row as a
    whole. *)

Section RunRule.
Context {W : Type} `{!WebDriver W}.
Variable cfg : UnscrobblerConfig.
Variable P : State W -> Prop.
Variable reach : Z -> Prop.

Hypothesis P_login : forall st c ok w,
  is_login_call c = true -> P st -> P (after_call st c ok w).
Hypothesis P_read : forall st c ok w,
  is_read_call c = true -> P st -> P (after_call st c ok w).
Hypothesis P_page : forall st n ok w,
  reach n -> P st -> P (after_call st (CGet (library_page_url n)) ok w).
Hypothesis P_href : forall st href ok w,
  P st -> P (after_call st (CGet (href_url href)) ok w).
Hypothesis P_row : forall fuel row txt ts,
  should_delete cfg (track_name txt) (artist_name txt) ts = true ->
  hoare (fun st => P st /\ deletions st < max_removals cfg)
    (delete_row cfg fuel row txt ts) P.
Hypothesis reach_first : reach (first_page cfg).
Hypothesis reach_next : forall n,
  reach n -> max_page_reached cfg n = false -> reach (n + 1).

Lemma exists_in_rows_kept rows : hoare P (exists_in_rows cfg rows) P.
Proof.
  induction rows as [| row rows IH]; simpl; [apply hoare_ret |].
  apply hoare_seq; [apply hoare_call; intros; apply P_read; auto |]. intros txt.
  apply hoare_seq; [apply hoare_lift |]. intros ts.
  destruct (should_delete _ _ _ _); [apply hoare_ret | exact IH].
Qed.

Lemma exists_in_sections_kept sections : hoare P (exists_in_sections cfg sections) P.
Proof.
  induction sections as [| section sections IH]; simpl; [apply hoare_ret |].
  apply hoare_seq; [apply hoare_call; intros; apply P_read; auto |]. intros rows.
  apply hoare_seq; [apply exists_in_rows_kept |].
  intros [|]; [apply hoare_ret | exact IH].
Qed.

Lemma to_delete_exists_kept : hoare P (to_delete_exists cfg) P.
Proof.
  apply hoare_seq; [apply hoare_call; intros; apply P_read; auto |].
  intros sections. apply exists_in_sections_kept.
Qed.

Lemma login_loop_kept fuel n : hoare P (login_loop fuel n) P.
Proof.
  revert n. induction fuel as [| fuel IH]; intros n; simpl; [apply hoare_out_of_fuel |].
  apply hoare_seq; [apply hoare_try, hoare_call; intros; apply P_login; auto |].
  intros [[] | e]; [apply hoare_ret |].
  destruct (n + 1 >=? 12); [apply hoare_ret | apply IH].
Qed.

Lemma for_rows_kept fuel rows : hoare P (for_rows cfg fuel rows) P.
Proof.
  induction rows as [| row rows IH]; simpl; [apply hoare_ret |].
  apply hoare_get_deletions. intros d.
  destruct (d >=? max_removals cfg) eqn:Hd.
  { eapply hoare_conseq; [apply (hoare_ret P) | tauto | auto]. }
  rewrite Z.geb_leb, Z.leb_gt in Hd.
  set (P' := fun st : State W => P st /\ deletions st = d).
  assert (HP' : forall st, P' st -> P st) by (unfold P'; tauto).
  apply hoare_bind with (R := P'); [| | exact HP'].
  { apply hoare_call. intros st ok w [HP <-]. split; [apply P_read; auto | reflexivity]. }
  intros txt. apply hoare_bind with (R := P'); [apply hoare_lift | | exact HP'].
  intros ts. destruct (should_delete _ _ _ _) eqn:Hsd.
  2: { eapply hoare_conseq; [exact IH | exact HP' | auto]. }
  apply hoare_bind with (R := P); [| intros _; exact IH | auto].
  eapply hoare_conseq; [apply (P_row fuel row txt ts Hsd) | | auto].
  intros st [HP <-]. split; [exact HP | exact Hd].
Qed.

Lemma for_sections_kept fuel sections : hoare P (for_sections cfg fuel sections) P.
Proof.
  induction sections as [| section sections IH]; simpl; [apply hoare_ret |].
  apply hoare_get_deletions. intros d.
  apply hoare_conseq with (P' := P) (Q' := P); [| tauto | auto].
  destruct (d >=? max_removals cfg); [apply hoare_ret |].
  apply hoare_seq; [apply hoare_call; intros; apply P_read; auto |]. intros rows.
  apply hoare_seq; [apply for_rows_kept | intros _; exact IH].
Qed.

Lemma attempt_loop_kept fuel n :
  reach n -> hoare P (attempt_loop cfg fuel (library_page_url n)) P.
Proof.
  intros Hn. induction fuel as [| fuel IH]; simpl; [apply hoare_out_of_fuel |].
  apply hoare_seq; [apply to_delete_exists_kept |]. intros found.
  apply hoare_get_deletions. intros d.
  apply hoare_conseq with (P' := P) (Q' := P); [| tauto | auto].
  destruct (found && (d <? max_removals cfg)); [| apply hoare_ret].
  apply hoare_seq; [apply hoare_call; intros; apply P_read; auto |]. intros sections.
  apply hoare_seq; [apply for_sections_kept |]. intros _.
  apply hoare_seq; [apply hoare_call; intros; apply P_page; auto |]. intros _.
  exact IH.
Qed.

Lemma page_loop_kept fuel n next_button :
  reach n -> hoare P (page_loop cfg fuel n next_button) P.
Proof.
  revert n next_button. induction fuel as [| fuel IH]; intros n nb Hn; simpl.
  { apply hoare_out_of_fuel. }
  apply hoare_get_deletions. intros d.
  apply hoare_conseq with (P' := P) (Q' := P); [| tauto | auto].
  destruct (d <? max_removals cfg); [| apply hoare_ret].
  apply hoare_seq; [apply hoare_call; intros; apply P_page; auto |]. intros _.
  apply hoare_seq; [apply hoare_call; intros; apply P_read; auto |]. intros _.
  apply hoare_seq; [apply attempt_loop_kept, Hn |]. intros _.
  apply hoare_seq; [apply hoare_try, hoare_call; intros; apply P_read; auto |].
  intros r. apply hoare_seq.
  { destruct r as [b | []]; first [apply hoare_ret | apply hoare_raise]. }
  intros nb'. destruct (max_page_reached cfg n) eqn:Hmax; [apply hoare_ret |].
  destruct nb' as [b |]; [| apply hoare_raise].
  apply hoare_seq; [apply hoare_call; intros; apply P_read; auto |]. intros href.
  apply hoare_seq; [apply hoare_call; intros; apply P_href; auto |]. intros _.
  apply IH, reach_next; assumption.
Qed.

Lemma run_kept fuel w : P (mk_state w 0 [] []) -> P (snd (run cfg fuel w)).
Proof.
  intros H0. revert H0. apply (hoare_seq P).
  { apply hoare_call; intros; apply P_login; auto. }
  intros _. apply hoare_seq; [apply login_loop_kept |].
  intros [|]; [| apply hoare_ret].
  apply hoare_seq; [apply page_loop_kept, reach_first | intros _; apply hoare_ret].
Qed.
End RunRule.

(** X9: deleting one matching row counts and logs it once, and only when the
    deletion went through.  If [delete_row] returns, the counter is one higher,
    the log (when there is a log file) has the row's entry at its end, and in
    a real run exactly one deletion click succeeded, none in a dry run; if it
    raises or is cut off, the counter and the log are as before and no
    deletion click succeeded. *)
Theorem deleting_a_row_counts_and_logs_once {W} `{!WebDriver W}
    (cfg : UnscrobblerConfig) (fuel : nat) (row : WebElement) (txt : RowText)
    (ts : datetime) (st : State W) :
  row_effect cfg row
    (mk_log_entry (track_name txt) (artist_name txt) (timestamp_string txt) ts)
    st (delete_row cfg fuel row txt ts st).
Proof. apply delete_row_effect. Qed.

(** X10: the deletion retry leaves the counter and the log alone and never
    raises; when it returns in a real run, the last call it made is a deletion
    click that succeeded, and no earlier one did. *)
Theorem retry_returns_after_a_confirmed_click {W} `{!WebDriver W}
    (cfg : UnscrobblerConfig) (fuel : nat) (more : WebElement) (st : State W) :
  retry_effect cfg more st (delete_retry cfg fuel more st).
Proof. apply delete_retry_effect. Qed.

Example flaky_row_is_counted_once :
  let cfg := scenario_cfg false 10 (Some 1) in
  let r := @delete_row Fixture (fixture_driver true true) cfg 10 1%nat
             (mk_row_text "T1" "A" 1%nat "2021-06-01T10:00") (mk_datetime 2021 10)
             flaky_page in
  fst r = Val tt /\ deletions (snd r) = 1
  /\ (ev_call <$> trace (snd r), ev_ok <$> trace (snd r))
     = ([CFocusRow 1%nat; CMoreButton 1%nat; CMoreButton 1%nat; CMoreButton 1%nat;
         CMoreButton 1%nat; CDeleteItem 1%nat],
        [true; false; false; false; true; true]).
Proof. repeat split; vm_compute; reflexivity. Qed.

(** ** What a whole run keeps *)

(** The log goes with the counter: one entry per counted deletion when there
    is a log file, none otherwise; and every entry is of a record that
    [should_delete] accepts. *)
Definition log_in_step {W} (cfg : UnscrobblerConfig) (st : State W) : Prop :=
  (if log_file cfg then Z.of_nat (length (log_lines st)) = deletions st
   else log_lines st = [])
  /\ Forall (fun d => should_delete cfg (log_track_title d) (log_artist_name d)
                        (log_timestamp_parsed d) = true) (log_lines st).

Lemma run_log_in_step {W} `{!WebDriver W} (cfg : UnscrobblerConfig) (fuel : nat) (w : W) :
  log_in_step cfg (snd (run cfg fuel w)).
Proof.
  apply (run_kept cfg (log_in_step cfg) (fun _ => True)); auto.
  - intros fuel' row txt ts Hsd st [[Hlen Hall] _].
    destruct (delete_row_effect cfg fuel' row txt ts st) as (delta & _ & _ & Hend).
    unfold log_in_step.
    destruct (fst (delete_row cfg fuel' row txt ts st));
      destruct Hend as (Hd & Hl & _); rewrite Hd, Hl; try (split; assumption).
    destruct (log_file cfg); rewrite ?app_nil_r.
    + split; [rewrite length_app; simpl; lia |].
      apply Forall_app. split; [exact Hall |]. constructor; [exact Hsd | constructor].
    + split; [exact Hlen | exact Hall].
  - unfold log_in_step. simpl. destruct (log_file cfg); split; auto.
Qed.

(** X11: at the end of any run, complete or cut off, the log holds exactly one
    entry per counted deletion when there is a log file and nothing when
    there is none, and every entry is of a record that [should_delete]
    accepts under the configuration of the run. *)
Theorem log_goes_with_the_counter {W} `{!WebDriver W}
    (cfg : UnscrobblerConfig) (fuel : nat) (w : W) :
  (if log_file cfg
   then Z.of_nat (length (log_lines (snd (run cfg fuel w)))) = deletions (snd (run cfg fuel w))
   else log_lines (snd (run cfg fuel w)) = [])
  /\ Forall (fun d => should_delete cfg (log_track_title d) (log_artist_name d)
                        (log_timestamp_parsed d) = true)
       (log_lines (snd (run cfg fuel w))).
Proof. apply run_log_in_step. Qed.

Lemma confirmed_clicks_snoc t e :
  is_confirmed e = false -> confirmed_clicks (t ++ [e]) = confirmed_clicks t.
Proof.
  intros He. rewrite confirmed_clicks_app. unfold confirmed_clicks at 2. simpl.
  rewrite He. simpl. lia.
Qed.

Definition clicks_counted {W} (cfg : UnscrobblerConfig) (st : State W) : Prop :=
  confirmed_clicks (trace st) = (if dry_run cfg then 0 else deletions st).

(** X12: at the end of any run, complete or cut off, the counter of a real
    run is the number of deletion clicks that succeeded: nothing is counted
    without a confirmed click, and no confirmed click goes uncounted.  In a
    dry run no deletion click succeeded. *)
Theorem counter_is_the_confirmed_clicks {W} `{!WebDriver W}
    (cfg : UnscrobblerConfig) (fuel : nat) (w : W) :
  confirmed_clicks (trace (snd (run cfg fuel w)))
  = (if dry_run cfg then 0 else deletions (snd (run cfg fuel w))).
Proof.
  apply (run_kept cfg (clicks_counted cfg) (fun _ => True)); unfold clicks_counted;
    auto.
  - intros st c ok w' Hc H. simpl. rewrite confirmed_clicks_snoc; [exact H |].
    destruct c; try discriminate; reflexivity.
  - intros st c ok w' Hc H. simpl. rewrite confirmed_clicks_snoc; [exact H |].
    destruct c; try discriminate; reflexivity.
  - intros st n ok w' _ H. simpl. rewrite confirmed_clicks_snoc; [exact H | reflexivity].
  - intros st href ok w' H. simpl. rewrite confirmed_clicks_snoc; [exact H | reflexivity].
  - intros fuel' row txt ts Hsd st [H _].
    destruct (delete_row_effect cfg fuel' row txt ts st) as (delta & Ht & _ & Hend).
    rewrite Ht, confirmed_clicks_app, H.
    destruct (fst (delete_row cfg fuel' row txt ts st));
      destruct Hend as (Hd & _ & Hc); rewrite Hd, Hc; destruct (dry_run cfg); lia.
  - simpl. destruct (dry_run cfg); reflexivity.
Qed.

Example confirmed_clicks_of_the_scenario :
  confirmed_clicks (trace (snd (run_on true false (scenario_cfg false 10 (Some 1)) 20 scenario)))
  = 2.
Proof. vm_compute. reflexivity. Qed.

(** ** The pages a run loads *)

Lemma first_page_positive cfg : 1 <= first_page cfg.
Proof.
  unfold first_page. destruct (start_page cfg) as [p |]; [| lia].
  destruct (negb (p =? 0) && (p >? 0)) eqn:Hp; [| lia].
  apply andb_true_iff in Hp as [_ Hp]. rewrite Z.gtb_ltb, Z.ltb_lt in Hp. lia.
Qed.

(** A page number the run may load: from the first page on, and not beyond
    the last page, if one is configured, or beyond the first page if that
    lies after it. *)
Definition page_in_range (cfg : UnscrobblerConfig) (n : Z) : Prop :=
  first_page cfg <= n
  /\ (forall mp, max_page cfg = Some mp -> mp <> 0 -> n <= Z.max (first_page cfg) mp).

Definition loads_page_in_range (cfg : UnscrobblerConfig) (e : Event) : Prop :=
  match ev_call e with
  | CGet (library_page_url n) => 1 <= n /\ page_in_range cfg n
  | _ => True
  end.

Lemma page_in_range_next cfg n :
  page_in_range cfg n -> max_page_reached cfg n = false -> page_in_range cfg (n + 1).
Proof.
  intros [Hlo Hhi] Hmax. split; [lia |]. intros mp Hmp Hnz.
  unfold max_page_reached in Hmax. rewrite Hmp in Hmax.
  apply andb_false_iff in Hmax as [Hz | Hlt].
  - apply negb_false_iff, Z.eqb_eq in Hz. contradiction.
  - rewrite Z.geb_leb, Z.leb_gt in Hlt. lia.
Qed.

Lemma run_loads_pages_in_range {W} `{!WebDriver W}
    (cfg : UnscrobblerConfig) (fuel : nat) (w : W) :
  Forall (loads_page_in_range cfg) (trace (snd (run cfg fuel w))).
Proof.
  apply (run_kept cfg (fun st => Forall (loads_page_in_range cfg) (trace st))
           (page_in_range cfg)).
  - intros st c ok w' Hc H. apply Forall_snoc; [exact H |].
    destruct c; try discriminate; exact I.
  - intros st c ok w' Hc H. apply Forall_snoc; [exact H |].
    destruct c; try discriminate; exact I.
  - intros st n ok w' Hn H. apply Forall_snoc; [exact H |].
    split; [| exact Hn]. pose proof (first_page_positive cfg). destruct Hn. lia.
  - intros st href ok w' H. apply Forall_snoc; [exact H | exact I].
  - intros fuel' row txt ts _ st [H _].
    destruct (delete_row_effect cfg fuel' row txt ts st) as (delta & Ht & Hacts & _).
    rewrite Ht. apply Forall_app. split; [exact H |].
    eapply Forall_impl; [exact Hacts |]. intros e He.
    unfold acts_on in He. unfold loads_page_in_range. destruct (ev_call e); tauto.
  - split; [lia |]. intros mp _ _. lia.
  - apply page_in_range_next.
  - constructor.
Qed.

(** X13: every library page a run loads has a number of at least 1, at least
    the start page (1 when the configured start page is missing, zero or
    negative) and, with a last page configured and not zero, at most the
    larger of the start page and the last page. *)
Theorem pages_stay_in_range {W} `{!WebDriver W}
    (cfg : UnscrobblerConfig) (fuel : nat) (w : W) :
  Forall (loads_page_in_range cfg) (trace (snd (run cfg fuel w))).
Proof. apply run_loads_pages_in_range. Qed.

Example pages_of_two_pages :
  omap (fun e => match ev_call e with CGet (library_page_url n) => Some n | _ => None end)
    (trace (snd (run_on true false (scenario_cfg false 10 (Some 2)) 20 two_pages)))
  = [1; 1; 2; 2].
Proof. vm_compute. reflexivity. Qed.

(** ** Runs that touch nothing *)

Definition only_logged_in {W} (st : State W) : Prop :=
  deletions st = 0 /\ log_lines st = []
  /\ Forall (fun e => is_login_call (ev_call e) = true) (trace st).

Lemma only_logged_in_call {W} (st : State W) c ok w :
  is_login_call c = true -> only_logged_in st -> only_logged_in (after_call st c ok w).
Proof.
  intros Hc (Hd & Hl & Ht). repeat split; try assumption.
  apply Forall_snoc; [exact Ht | exact Hc].
Qed.

Lemma page_loop_without_budget {W} `{!WebDriver W} (cfg : UnscrobblerConfig)
    (fuel : nat) n nb (st : State W) :
  max_removals cfg <= deletions st -> snd (page_loop cfg fuel n nb st) = st.
Proof.
  intros Hmax. destruct fuel as [| fuel]; simpl; [reflexivity |].
  rewrite bind_run. simpl.
  destruct (Z.ltb_spec (deletions st) (max_removals cfg)); [lia | reflexivity].
Qed.

Lemma login_keeps_only_logged_in {W} `{!WebDriver W} (cfg : UnscrobblerConfig)
    (fuel : nat) (w : W) :
  only_logged_in
    (snd ((call COpenLogin (open_login (lastfm_username cfg) (lastfm_password cfg));;
           login_loop fuel 0) (mk_state w 0 [] []))).
Proof.
  assert (H0 : only_logged_in (mk_state w 0 [] [])) by (repeat split; constructor).
  revert H0. apply (hoare_seq only_logged_in).
  - apply hoare_call. intros. apply only_logged_in_call; auto.
  - intros _. apply login_loop_inv. intros. apply only_logged_in_call; auto.
Qed.

(** X14: with a budget of zero or less the run logs in and stops there: it
    loads no library page, reads no row, and counts and logs nothing. *)
Theorem no_budget_no_page {W} `{!WebDriver W}
    (cfg : UnscrobblerConfig) (fuel : nat) (w : W) :
  max_removals cfg <= 0 ->
  deletions (snd (run cfg fuel w)) = 0 /\ log_lines (snd (run cfg fuel w)) = []
  /\ Forall (fun e => is_login_call (ev_call e) = true) (trace (snd (run cfg fuel w))).
Proof.
  intros Hmax. pose proof (login_keeps_only_logged_in cfg fuel w) as Hlogin.
  unfold run, unscrobbler. rewrite bind_run.
  destruct (call COpenLogin _ _) as [[[] | e |] st1] eqn:Hopen;
    rewrite bind_run, Hopen in Hlogin; simpl in Hlogin; try exact Hlogin.
  rewrite bind_run.
  destruct (login_loop fuel 0 st1) as [[[|] | e |] st2]; simpl in Hlogin;
    try exact Hlogin.
  rewrite bind_run.
  pose proof (page_loop_without_budget cfg fuel (first_page cfg) None st2) as Hpage.
  destruct Hlogin as (Hd & Hl & Ht).
  destruct (page_loop cfg fuel (first_page cfg) None st2) as [[[] | e |] st3];
    simpl in *; rewrite Hpage by lia; repeat split; assumption.
Qed.

Lemma no_budget_no_page_witness :
  let r := run_on true false (scenario_cfg false 0 (Some 1)) 20 scenario in
  deletions (snd r) = 0 /\ log_lines (snd r) = []
  /\ Forall (fun e => is_login_call (ev_call e) = true) (trace (snd r)).
Proof.
  apply (@no_budget_no_page Fixture (fixture_driver true false)
           (scenario_cfg false 0 (Some 1)) 20 scenario).
  simpl. lia.
Defined.

(** X15: a run that returns [EXIT_ERROR] has done nothing but try to log in:
    it loaded no library page and counted and logged nothing; and a run that
    returns at all returns [EXIT_SUCCESS] or [EXIT_ERROR]. *)
Theorem error_exit_touches_nothing {W} `{!WebDriver W}
    (cfg : UnscrobblerConfig) (fuel : nat) (w : W) :
  (fst (run cfg fuel w) = Val EXIT_ERROR ->
     deletions (snd (run cfg fuel w)) = 0 /\ log_lines (snd (run cfg fuel w)) = []
     /\ Forall (fun e => is_login_call (ev_call e) = true) (trace (snd (run cfg fuel w))))
  /\ (forall code, fst (run cfg fuel w) = Val code ->
        code = EXIT_SUCCESS \/ code = EXIT_ERROR).
Proof.
  pose proof (login_keeps_only_logged_in cfg fuel w) as Hlogin.
  unfold run, unscrobbler. rewrite bind_run.
  destruct (call COpenLogin _ _) as [[[] | e |] st1] eqn:Hopen;
    rewrite bind_run, Hopen in Hlogin; simpl in Hlogin;
    try (split; [discriminate | intros code; discriminate]).
  rewrite bind_run.
  destruct (login_loop fuel 0 st1) as [[[|] | e |] st2]; simpl in Hlogin;
    try (split; [discriminate | intros code; discriminate]).
  - rewrite bind_run.
    destruct (page_loop cfg fuel (first_page cfg) None st2) as [[[] | e |] st3]; simpl;
      split; try discriminate; intros code [= <-]; left; reflexivity.
  - simpl. split; [intros _; exact Hlogin | intros code [= <-]; right; reflexivity].
Qed.

Lemma error_exit_touches_nothing_witness :
  let r := run_on true true (scenario_cfg false 10 (Some 1)) 20 locked_out in
  deletions (snd r) = 0 /\ log_lines (snd r) = []
  /\ Forall (fun e => is_login_call (ev_call e) = true) (trace (snd r)).
Proof.
  destruct (@error_exit_touches_nothing Fixture (fixture_driver true true)
              (scenario_cfg false 10 (Some 1)) 20 locked_out) as [Herr _].
  apply Herr. reflexivity.
Defined.

(** ** The scan that looks ahead *)

Definition only_read_since {W} (st0 st : State W) : Prop :=
  deletions st = deletions st0 /\ log_lines st = log_lines st0
  /\ extends (fun e => is_read_call (ev_call e) = true) st0 st.

(** X16: [to_delete_exists] only looks: however it ends, the counter and the
    log are as before, and every call it made reads the page (the sections,
    the rows of a section, the fields of a row); it clicks nothing. *)
Theorem to_delete_exists_only_reads {W} `{!WebDriver W}
    (cfg : UnscrobblerConfig) (st : State W) :
  deletions (snd (to_delete_exists cfg st)) = deletions st
  /\ log_lines (snd (to_delete_exists cfg st)) = log_lines st
  /\ extends (fun e => is_read_call (ev_call e) = true) st (snd (to_delete_exists cfg st)).
Proof.
  apply (to_delete_exists_kept cfg (only_read_since st)).
  - intros st' c ok w Hc (Hd & Hl & Hext). repeat split; try assumption.
    apply extends_call; assumption.
  - repeat split. apply extends_refl.
Qed.

(** ** One pass, counted *)

Lemma for_rows_count {W} `{!WebDriver W} (cfg : UnscrobblerConfig) (fuel : nat)
    (rows : list WebElement) (d0 k : Z) :
  hoare (fun st : State W => d0 <= deletions st <= d0 + k)
    (for_rows cfg fuel rows)
    (fun st => d0 <= deletions st <= d0 + k + Z.of_nat (length rows)).
Proof.
  revert k. induction rows as [| row rows IH]; intros k.
  { intros st H. simpl. lia. }
  assert (HL : Z.of_nat (length (row :: rows)) = Z.of_nat (length rows) + 1)
    by (simpl length; lia).
  rewrite HL. clear HL. simpl.
  set (n := Z.of_nat (length rows)) in *.
  set (Pk := fun (j : Z) (st : State W) => d0 <= deletions st <= d0 + j).
  assert (Hstop : forall st, Pk k st -> Pk (k + (n + 1)) st).
  { unfold Pk, n. intros st H. lia. }
  apply hoare_get_deletions. intros d.
  apply hoare_conseq with (P' := Pk k) (Q' := Pk (k + (n + 1)));
    [| intros st [H _]; exact H | unfold Pk; intros; lia].
  destruct (d >=? max_removals cfg); [intros st H; apply Hstop, H |].
  apply hoare_bind with (R := Pk k); [| | exact Hstop].
  { apply hoare_call. intros st ok w H. exact H. }
  intros txt. apply hoare_bind with (R := Pk k); [apply hoare_lift | | exact Hstop].
  intros ts. destruct (should_delete _ _ _ _).
  2: { eapply hoare_conseq; [apply (IH k) | auto |].
       unfold Pk, n. intros st H. lia. }
  apply hoare_bind with (R := Pk (k + 1)).
  - intros st H.
    destruct (delete_row_effect cfg fuel row txt ts st) as (delta & _ & _ & Hend).
    unfold Pk in *.
    destruct (fst (delete_row cfg fuel row txt ts st)); destruct Hend as (Hd & _); lia.
  - intros _. eapply hoare_conseq; [apply (IH (k + 1)) | unfold Pk; auto |].
    unfold Pk, n. intros st H. lia.
  - unfold Pk, n. intros st H. lia.
Qed.

(** X17: one pass over a fetched list of rows never lowers the counter and
    raises it by at most the number of rows in the list. *)
Theorem pass_counts_at_most_its_rows {W} `{!WebDriver W}
    (cfg : UnscrobblerConfig) (fuel : nat) (rows : list WebElement) (st : State W) :
  deletions st <= deletions (snd (for_rows cfg fuel rows st))
               <= deletions st + Z.of_nat (length rows).
Proof.
  pose proof (for_rows_count cfg fuel rows (deletions st) 0 st) as H.
  simpl in H. assert (H0 : deletions st <= deletions st <= deletions st + 0) by lia.
  specialize (H H0). lia.
Qed.

(** ** From the command line to the run *)

Lemma run_keeps_budget {W} `{!WebDriver W} (cfg : UnscrobblerConfig)
    (fuel : nat) (w : W) :
  0 <= max_removals cfg -> budget_kept cfg (snd (run cfg fuel w)).
Proof.
  intros Hmax.
  apply (run_inv cfg (budget_kept cfg) (budget_left cfg)); unfold budget_kept, budget_left.
  - intros st c ok w' Hc [Hd Ht]. split; [exact Hd |].
    apply Forall_snoc; [exact Ht |]. split; simpl; [exact Hd |].
    destruct c; simpl in *; congruence.
  - intros st c ok w' _ Hc [Hd Ht]. split; [exact Hd |].
    apply Forall_snoc; [exact Ht |]. split; simpl; [exact Hd |].
    destruct c; simpl in *; congruence.
  - intros st _ _ _ [_ Ht] Hlt _. split; [exact Hlt | exact Ht].
  - intros st row ok w' [Hd Ht]. split; [exact Hd |].
    apply Forall_snoc; [exact Ht |]. split; simpl; [lia | discriminate].
  - intros st c ok w' _ _ [Hd Ht]. split; [exact Hd |].
    apply Forall_snoc; [exact Ht |]. split; simpl; [lia | intros _; exact Hd].
  - intros st d H. exact H.
  - intros st [Hd Ht]. split; simpl; [lia | exact Ht].
  - intros st [Hd Ht]. split; [lia | exact Ht].
  - split; simpl; [exact Hmax | constructor].
Qed.

(** X18: what the flags promise of the run the script starts.  Whatever the
    browser does, the run counts at most [--max-removals] deletions; without
    [--no-dry-run] no deletion call reaches the browser; without [--log-dir]
    nothing is logged; and no library page beyond the larger of
    [--start-page] and [--max-page] is loaded when [--max-page] is not 0. *)
Theorem flags_bound_the_run {W} `{!WebDriver W} args env cfg (fuel : nat) (w : W) :
  main args env = Core cfg ->
  deletions (snd (run cfg fuel w)) <= arg_max_removals args
  /\ (arg_no_dry_run args = false ->
      Forall no_deletion_call (trace (snd (run cfg fuel w))))
  /\ (truthy_str (arg_log_dir args) = false -> log_lines (snd (run cfg fuel w)) = [])
  /\ (arg_max_page args <> 0 ->
      Forall (fun e => match ev_call e with
                       | CGet (library_page_url n) =>
                           n <= Z.max 1 (Z.max (arg_start_page args) (arg_max_page args))
                       | _ => True
                       end) (trace (snd (run cfg fuel w)))).
Proof.
  intros Hmain.
  destruct (main_core_inversion args env cfg Hmain)
    as (_ & Hmax & Hpos & Hdry & _ & _ & _ & Hstart & Hlast & Hlog & _).
  repeat split.
  - rewrite <- Hmax. apply run_keeps_budget. lia.
  - intros Hflag. apply dry_run_makes_no_deletion_call. rewrite Hdry, Hflag. reflexivity.
  - intros Hdir. pose proof (run_log_in_step cfg fuel w) as [Hl _].
    rewrite Hlog, Hdir in Hl. exact Hl.
  - intros Hnz.
    pose proof (run_loads_pages_in_range cfg fuel w) as Hrun.
    eapply Forall_impl; [exact Hrun |]. intros e He.
    unfold loads_page_in_range in He. destruct (ev_call e) as [| | [| n |] | | | | | | | | |];
      try exact I.
    destruct He as [_ [_ Hhi]]. specialize (Hhi _ Hlast Hnz).
    assert (Hfirst : first_page cfg <= Z.max 1 (arg_start_page args)).
    { unfold first_page. rewrite Hstart.
      destruct (negb (arg_start_page args =? 0) && (arg_start_page args >? 0)); lia. }
    lia.
Qed.

Lemma flags_bound_the_run_witness :
  let r := run_on true false demo_core_cfg 20 scenario in
  deletions (snd r) <= 100
  /\ (false = false -> Forall no_deletion_call (trace (snd r)))
  /\ (truthy_str None = false -> log_lines (snd r) = [])
  /\ (20 <> 0 ->
      Forall (fun e => match ev_call e with
                       | CGet (library_page_url n) => n <= Z.max 1 (Z.max 1 20)
                       | _ => True
                       end) (trace (snd r))).
Proof.
  apply (@flags_bound_the_run Fixture (fixture_driver true false)
           (demo_args (Some 2021) None None) demo_env demo_core_cfg 20 scenario).
  reflexivity.
Defined.
